(** * gfdashsync: the reconciliation of Grafana dashboards with a Gitlab
      repository (main.go)

    The development follows main.go.  A [Gitlab] value is the state of the
    Go struct of the same name; [Add], [add], [updateHistory],
    [deleteOrphans] and [Commit] are its methods, written as functions from
    state to state.

    Modelling conventions.
    - [History] is Go's [map[string]*File].  Every [*File] stored in the map
      is reached through the map alone (main allocates a fresh [File] per
      dashboard, json.Unmarshal allocates a fresh one per member), so the map
      is modelled as holding the [File] values, and an assignment through a
      stored pointer ([hf.processed = true]) as an update of the entry.
    - A history file may hold [null] for a member, or be [null] itself:
      json.Unmarshal then stores a nil pointer, or a nil map, and Add and
      deleteOrphans panic when they reach it.  [History] holds records only;
      such files are outside the stores modelled here ([json.UnmarshalValue]
      shows what they decode to).
    - Go leaves the order of [range] over a map unspecified.  [deleteOrphans]
      therefore takes the order in which the loop visits the keys as an
      argument; [range_order] says which orders [range] can produce.
    - The calls into go-gitlab, encoding/base64 and encoding/json are kept at
      their interface: what the server answers is an argument of the function
      that asks, the decoders and the text layer of json.Marshal are section
      variables.  What json.Marshal and json.Unmarshal do with a [History]
      once the text is parsed is modelled in [Module json].
    - [hash] is written out: SHA-256 as FIPS 180-4 defines it, on words
      held in [N], and the hexadecimal encoding.
    - [main] and [setFlagsFromFile] run against a [World]: the answers of
      the file system, of packages flag and strings, of Grafana and of
      Gitlab, and the order [range] takes.  [main] starts from the flags as
      flag.Parse left them and returns how it ended, the commit it sent and
      the lines it logged. *)

From Stdlib Require Import Strings.Byte Strings.Ascii Strings.String.
From stdpp Require Import gmap strings list fin_maps sorting.

Local Open Scope string_scope.
Local Open Scope list_scope.

#[local] Set Warnings "-clear-no-such-hyp".

(** ** Errors *)

(** A Go [error], identified with its message. *)
Definition error := string.

(** [fmt.Errorf(prefix ++ "%w", err)]. *)
Definition Errorf (prefix : string) (err : error) : error := prefix +:+ err.

(** ** The part of go-gitlab the program uses *)

Module gitlab.

Inductive FileActionValue :=
| FileCreate
| FileDelete
| FileMove
| FileUpdate
| FileChmod.

Global Instance FileActionValue_eq_dec : EqDecision FileActionValue.
Proof. solve_decision. Defined.

(** [gitlab.CommitActionOptions]: every field is a pointer, [None] is the
    nil pointer (the field is then left out of the request).  The fields
    the program never sets (Encoding, LastCommitID, ExecuteFilemode) stay
    nil and are omitted. *)
Record CommitActionOptions := mkCommitAction {
  Action : option FileActionValue;
  FilePath : option string;
  PreviousPath : option string;
  Content : option string
}.

Global Instance CommitActionOptions_eq_dec : EqDecision CommitActionOptions.
Proof. solve_decision. Defined.

Record CreateCommitOptions := mkCreateCommit {
  Branch : option string;
  CommitMessage : option string;
  Actions : list CommitActionOptions
}.

(** [gitlab.String], [gitlab.FileAction]: a pointer to a copy. *)
Definition String (s : string) : option string := Some s.
Definition FileAction (a : FileActionValue) : option FileActionValue := Some a.

(** [*gitlab.Response], as far as the program looks into it. *)
Record Response := mkResponse { StatusCode : Z }.

(** What [RepositoryFiles.GetFile] hands back: the file (its base64
    content) with a nil error, or a possibly nil response with an error. *)
Inductive GetFileReturn :=
| GetFileOk (fContent : string)
| GetFileErr (resp : option Response) (err : error).

End gitlab.

Definition StatusNotFound : Z := 404.

(** ** Data model *)

Record File := mkFile {
  UID : string;
  Path : string;
  SHA256 : string;
  content : list byte;
  processed : bool
}.

Abbreviation History := (gmap string File).

Definition set_processed (f : File) : File :=
  {| UID := UID f; Path := Path f; SHA256 := SHA256 f;
     content := content f; processed := true |}.

Definition moved (f hf : File) : bool :=
  bool_decide (Path f ≠ Path hf) && bool_decide (UID f = UID hf)
  && bool_decide (SHA256 f ≠ SHA256 hf).

Definition modified (f hf : File) : bool :=
  bool_decide (Path f = Path hf) && bool_decide (UID f = UID hf)
  && bool_decide (SHA256 f ≠ SHA256 hf).

(** The [client] field is the connection to the server; what it answers is
    passed to the functions that call it. *)
Record Gitlab := mkGitlab {
  pid : Z;
  branch : string;
  history : History;
  historyFile : string;
  historyAction : gitlab.FileActionValue;
  actions : list gitlab.CommitActionOptions
}.

Definition with_history (g : Gitlab) (h : History) : Gitlab :=
  {| pid := pid g; branch := branch g; history := h;
     historyFile := historyFile g; historyAction := historyAction g;
     actions := actions g |}.

Definition with_actions (g : Gitlab) (a : list gitlab.CommitActionOptions) : Gitlab :=
  {| pid := pid g; branch := branch g; history := history g;
     historyFile := historyFile g; historyAction := historyAction g;
     actions := a |}.

Definition with_historyAction (g : Gitlab) (a : gitlab.FileActionValue) : Gitlab :=
  {| pid := pid g; branch := branch g; history := history g;
     historyFile := historyFile g; historyAction := a;
     actions := actions g |}.

(** ** Add *)

(** The [PreviousPath] of the action built by [add]: set only when
    [prevPath != ""]. *)
Definition previousPath (prevPath : string) : option string :=
  if bool_decide (prevPath ≠ "") then gitlab.String prevPath else None.

Definition add (g : Gitlab) (inp : File) (action : gitlab.FileActionValue)
    (prevPath : string) : Gitlab :=
  let inp := set_processed inp in
  let opt :=
    {| gitlab.Action := gitlab.FileAction action;
       gitlab.FilePath := gitlab.String (Path inp);
       gitlab.PreviousPath := previousPath prevPath;
       gitlab.Content := gitlab.String (String.string_of_list_byte (content inp)) |} in
  with_history (with_actions g (actions g ++ [opt]))
               (<[UID inp := inp]> (history g)).

Definition Add (g : Gitlab) (inp : File) : Gitlab :=
  match history g !! UID inp with
  | None => add g inp gitlab.FileCreate ""
  | Some hf =>
      if moved inp hf then add g inp gitlab.FileMove (Path hf)
      else if modified inp hf then add g inp gitlab.FileUpdate ""
      else with_history g (<[UID inp := set_processed hf]> (history g))
  end.

(** The loop of main: the dashboards are added one at a time. *)
Definition AddAll (g : Gitlab) (blobs : list File) : Gitlab :=
  foldl Add g blobs.

(** ** deleteOrphans *)

Definition deleteAction (f : File) : gitlab.CommitActionOptions :=
  {| gitlab.Action := gitlab.FileAction gitlab.FileDelete;
     gitlab.FilePath := gitlab.String (Path f);
     gitlab.PreviousPath := None;
     gitlab.Content := None |}.

(** One iteration of [for _, f := range g.history].  An entry that was
    deleted before the loop reached it is not produced. *)
Definition deleteOrphan (g : Gitlab) (k : string) : Gitlab :=
  match history g !! k with
  | None => g
  | Some f =>
      if processed f then g
      else with_history (with_actions g (actions g ++ [deleteAction f]))
                        (delete (UID f) (history g))
  end.

Definition deleteOrphans (order : list string) (g : Gitlab) : Gitlab :=
  foldl deleteOrphan g order.

(** The orders in which [range h] can visit the keys: each key of [h]
    once. *)
Definition range_order (h : History) (order : list string) : Prop :=
  order ≡ₚ (map_to_list h).*1.

(** ** encoding/json, at the types of the program

    [json.value] is a parsed JSON document.  [json.MarshalValue] is the
    document json.Marshal writes for a [History], as the declaration of
    [File] fixes it: the exported fields under their tags, in the order of
    the declaration, the unexported [content] and [processed] left out, the
    keys of the map sorted.  [json.UnmarshalValue] is what json.Unmarshal
    stores into an empty [History] for a parsed document.  The text layer
    (printing and scanning) is the library's. *)

Module json.

Local Unset Elimination Schemes.

Inductive value :=
| Null
| Bool (b : bool)
| Number (literal : string)
| Str (s : string)
| Array (elems : list value)
| Object (members : list (string * value)).

Local Set Elimination Schemes.

(** *** Marshal *)

Definition MarshalFile (f : File) : value :=
  Object [("uid", Str (UID f)); ("path", Str (Path f));
          ("sha256", Str (SHA256 f))].

(** Map keys are written in increasing byte order. *)
Definition key_le {A} : relation (string * A) :=
  λ x y, String.leb x.1 y.1 = true.

Global Instance key_le_dec {A} (x y : string * A) : Decision (key_le x y).
Proof. unfold key_le. apply _. Defined.

Definition MarshalValue (h : History) : value :=
  Object (prod_map id MarshalFile <$> merge_sort key_le (map_to_list h)).

(** *** Unmarshal *)

(** The first type mismatch met while decoding; decoding goes on after
    it and Unmarshal returns it at the end. *)
Record UnmarshalTypeError := mkTypeError {
  Value : string;
  Type_ : string
}.

Definition kind (v : value) : string :=
  match v with
  | Null => "null"
  | Bool _ => "bool"
  | Number _ => "number"
  | Str _ => "string"
  | Array _ => "array"
  | Object _ => "object"
  end.

Definition saveError (saved : option UnmarshalTypeError)
    (e : UnmarshalTypeError) : option UnmarshalTypeError :=
  match saved with
  | Some _ => saved
  | None => Some e
  end.

(** Matching of a member name against a field name: equal bytes, or ASCII
    letters equal up to case, or the long s (U+017F) for an s and the
    Kelvin sign (U+212A) for a k of the field name. *)
Definition caseMask (a : ascii) : N := N.land (N_of_ascii a) 223.

Definition isLetter (a : ascii) : bool :=
  (65 <=? caseMask a)%N && (caseMask a <=? 90)%N && (N_of_ascii a <? 128)%N.

Fixpoint equalFold (name key : string) : bool :=
  match name, key with
  | EmptyString, EmptyString => true
  | String.String sb name', String.String tb key' =>
      if (N_of_ascii tb <? 128)%N then
        (bool_decide (sb = tb)
         || (isLetter sb && bool_decide (caseMask sb = caseMask tb)))
        && equalFold name' key'
      else if bool_decide (caseMask sb = 83%N) then
        match key' with
        | String.String tb2 key'' =>
            bool_decide (N_of_ascii tb = 197%N)
            && bool_decide (N_of_ascii tb2 = 191%N)
            && equalFold name' key''
        | EmptyString => false
        end
      else if bool_decide (caseMask sb = 75%N) then
        match key' with
        | String.String tb2 (String.String tb3 key'') =>
            bool_decide (N_of_ascii tb = 226%N)
            && bool_decide (N_of_ascii tb2 = 132%N)
            && bool_decide (N_of_ascii tb3 = 170%N)
            && equalFold name' key''
        | _ => false
        end
      else false
  | _, _ => false
  end.

Inductive field := fUID | fPath | fSHA256.

Definition fieldName (f : field) : string :=
  match f with
  | fUID => "uid"
  | fPath => "path"
  | fSHA256 => "sha256"
  end.

Definition fields : list field := [fUID; fPath; fSHA256].

(** An exactly matching field wins, otherwise the first one matching up
    to case. *)
Definition findField (key : string) : option field :=
  match list_find (λ f, fieldName f = key) fields with
  | Some (_, f) => Some f
  | None => snd <$> list_find (λ f, equalFold (fieldName f) key = true) fields
  end.

Definition setField (f : field) (s : string) (x : File) : File :=
  match f with
  | fUID => {| UID := s; Path := Path x; SHA256 := SHA256 x;
               content := content x; processed := processed x |}
  | fPath => {| UID := UID x; Path := s; SHA256 := SHA256 x;
                content := content x; processed := processed x |}
  | fSHA256 => {| UID := UID x; Path := Path x; SHA256 := s;
                  content := content x; processed := processed x |}
  end.

(** One member of the object of a [File]: a string sets the field, null
    leaves it, anything else is a type error; a name that matches no
    field is skipped. *)
Definition UnmarshalMember (st : File * option UnmarshalTypeError)
    (m : string * value) : File * option UnmarshalTypeError :=
  match findField m.1 with
  | None => st
  | Some f =>
      match m.2 with
      | Str s => (setField f s st.1, st.2)
      | Null => st
      | v => (st.1, saveError st.2 (mkTypeError (kind v) "string"))
      end
  end.

(** The zero [File] a fresh pointer is pointed at. *)
Definition zeroFile : File :=
  {| UID := ""; Path := ""; SHA256 := ""; content := []; processed := false |}.

(** A member of the map, decoded into a fresh [*File]: null leaves the
    pointer nil ([None]). *)
Definition UnmarshalFile (v : value) (saved : option UnmarshalTypeError)
    : option File * option UnmarshalTypeError :=
  match v with
  | Null => (None, saved)
  | Object members =>
      let r := foldl UnmarshalMember (zeroFile, saved) members in
      (Some r.1, r.2)
  | v => (Some zeroFile, saveError saved (mkTypeError (kind v) "main.File"))
  end.

(** The decoded map: [None] is the nil map a top-level null stores, an
    entry [None] a nil pointer. *)
Definition Pointers : Type := option (gmap string (option File)).

Definition UnmarshalEntry
    (st : gmap string (option File) * option UnmarshalTypeError)
    (m : string * value) : gmap string (option File) * option UnmarshalTypeError :=
  let r := UnmarshalFile m.2 st.2 in
  (<[m.1 := r.1]> st.1, r.2).

(** json.Unmarshal into [&g.history], where [g.history] is the empty map
    NewGitlab made. *)
Definition UnmarshalValue (v : value) : Pointers * option UnmarshalTypeError :=
  match v with
  | Null => (None, None)
  | Object members =>
      let r := foldl UnmarshalEntry (∅, None) members in
      (Some r.1, r.2)
  | v => (Some ∅, Some (mkTypeError (kind v) "main.History"))
  end.

End json.

(** What is left of a record once it went through the history file: the
    unexported fields are back at their zero values. *)
Definition persisted (f : File) : File :=
  {| UID := UID f; Path := Path f; SHA256 := SHA256 f;
     content := []; processed := false |}.

(** ** updateHistory, Commit, parseHistory, NewGitlab *)

Inductive CommitReturn :=
| CommitSkipped
    (* nothing to commit: the server is not called, nil is returned *)
| CommitSent (opt : gitlab.CreateCommitOptions) (err : option error).
    (* CreateCommit was called with [opt]; [err] is what Commit returns *)

Section Program.

(** The text layer of json.Marshal. *)
Variable json_text : json.value → list byte.
(** [json.Unmarshal(data, &h)]: the map it leaves in [h] and its error. *)
Variable json_Unmarshal : list byte → History → History * option error.
(** [base64.StdEncoding.DecodeString]. *)
Variable base64_DecodeString : string → list byte * option error.

Definition json_Marshal (h : History) : list byte :=
  json_text (json.MarshalValue h).

Definition historyFileAction (g : Gitlab) : gitlab.CommitActionOptions :=
  {| gitlab.Action := gitlab.FileAction (historyAction g);
     gitlab.FilePath := gitlab.String (historyFile g);
     gitlab.PreviousPath := None;
     gitlab.Content :=
       gitlab.String (String.string_of_list_byte (json_Marshal (history g))) |}.

(** json.Marshal has no error at this type (strings under string keys),
    so the error branch of the source is not taken. *)
Definition updateHistory (g : Gitlab) : Gitlab :=
  if bool_decide (size (history g) = 0) then g
  else with_actions g (actions g ++ [historyFileAction g]).

Definition commitMessage : string := "ʕ◔ϖ◔ʔ: backup done.".

Definition Commit (order : list string)
    (CreateCommit : gitlab.CreateCommitOptions → option error)
    (g : Gitlab) : Gitlab * CommitReturn :=
  let g := deleteOrphans order g in
  if bool_decide (length (actions g) = 0) then (g, CommitSkipped)
  else
    let g := updateHistory g in
    let opt :=
      {| gitlab.Branch := gitlab.String (branch g);
         gitlab.CommitMessage := gitlab.String commitMessage;
         gitlab.Actions := actions g |} in
    (g, CommitSent opt (Errorf "gitlab: commit error: " <$> CreateCommit opt)).

Definition parseHistory (GetFile : gitlab.GetFileReturn) (g : Gitlab)
    : Gitlab * option error :=
  match GetFile with
  | gitlab.GetFileErr resp err =>
      match resp with
      | Some r =>
          if bool_decide (gitlab.StatusCode r = StatusNotFound)
          then (with_historyAction g gitlab.FileCreate, None)
          else (g, Some err)
      | None => (g, Some err)
      end
  | gitlab.GetFileOk fContent =>
      match base64_DecodeString fContent with
      | (_, Some err) => (g, Some err)
      | (data, None) =>
          let r := json_Unmarshal data (history g) in
          (with_history g r.1, r.2)
      end
  end.

(** [NewClient] is what gitlab.NewClient returns as its error. *)
Definition NewGitlab (NewClient : option error)
    (GetFile : gitlab.GetFileReturn) (branch : string) (pid : Z)
    : option Gitlab * option error :=
  match NewClient with
  | Some err => (None, Some (Errorf "gitlab: error creating client: " err))
  | None =>
      let g :=
        {| pid := pid; branch := branch; history := ∅;
           historyFile := "history.json";
           historyAction := gitlab.FileUpdate;
           actions := [] |} in
      match parseHistory GetFile g with
      | (_, Some err) => (None, Some (Errorf "gitlab: error parsing history: " err))
      | (g, None) => (Some g, None)
      end
  end.

End Program.

(** ** Invariants of the store and of a run *)

(** Every record sits under its own uid.  [add] stores a file under
    [in.UID], so every store the program builds from the empty one, and
    every history file it writes, is of this shape. *)
Definition keyed_by_uid (h : History) : Prop :=
  map_Forall (λ k f, UID f = k) h.

(** A store as json.Unmarshal leaves it: no record is marked. *)
Definition unprocessed (h : History) : Prop :=
  map_Forall (λ _ f, processed f = false) h.

(** The marked records are those whose id is in [seen]: what holds
    during a run that started on an unmarked store, [seen] being the ids
    added so far. *)
Definition marked_are (seen : list string) (h : History) : Prop :=
  map_Forall (λ k f, processed f = true ↔ k ∈ seen) h.

(** The records the sweep deletes when it visits the keys in [order]. *)
Definition orphan (h : History) (k : string) : option File :=
  match h !! k with
  | Some f => if processed f then None else Some f
  | None => None
  end.

Definition orphans (h : History) (order : list string) : list File :=
  omap (orphan h) order.

(** ** A whole run *)

(** The store a later run loads from the history file that holds [h]. *)
Definition reload (h : History) : History := persisted <$> h.

(** The actions handed to the server by Commit: none when it is skipped. *)
Definition batch (r : CommitReturn) : list gitlab.CommitActionOptions :=
  match r with
  | CommitSkipped => []
  | CommitSent opt _ => gitlab.Actions opt
  end.

(** What updateHistory adds to a non-empty list of actions. *)
Definition historyTail (json_text : json.value → list byte) (g : Gitlab)
    : list gitlab.CommitActionOptions :=
  if decide (actions g ≠ [] ∧ history g ≠ ∅)
  then [historyFileAction json_text g] else [].

(** ** A text layer and the scenarios of the tests

    The theorems below hold for every text layer.  The examples run with
    [compact], the text json.Marshal writes for a document whose strings are
    valid UTF-8 without U+2028 and U+2029 (the library replaces invalid
    bytes and escapes these two characters). *)

Definition hexDigit (n : N) : ascii :=
  ascii_of_N (if (n <? 10)%N then 48 + n else 87 + n).

Definition quoteChar : ascii := ascii_of_nat 34.

Definition escapeByte (a : ascii) : string :=
  let n := N_of_ascii a in
  if (n =? 34)%N || (n =? 92)%N then String "\" (String a "")
  else if (n =? 10)%N then "\n"
  else if (n =? 13)%N then "\r"
  else if (n =? 9)%N then "\t"
  else if (n <? 32)%N || (n =? 60)%N || (n =? 62)%N || (n =? 38)%N
  then "\u00" +:+ String (hexDigit (n / 16)) (String (hexDigit (n mod 16)) "")
  else String a "".

Fixpoint escapeString (s : string) : string :=
  match s with
  | EmptyString => ""
  | String a s => escapeByte a +:+ escapeString s
  end.

Definition quoted (s : string) : string :=
  String quoteChar (escapeString s) +:+ String quoteChar "".

Fixpoint joinComma (l : list string) : string :=
  match l with
  | [] => ""
  | [s] => s
  | s :: l => s +:+ "," +:+ joinComma l
  end.

Fixpoint printValue (v : json.value) : string :=
  match v with
  | json.Null => "null"
  | json.Bool b => if b then "true" else "false"
  | json.Number literal => literal
  | json.Str s => quoted s
  | json.Array elems => "[" +:+ joinComma (map printValue elems) +:+ "]"
  | json.Object members =>
      "{" +:+ joinComma (map (λ '(k, v), quoted k +:+ ":" +:+ printValue v) members)
      +:+ "}"
  end.

Definition compact (v : json.value) : list byte :=
  String.list_byte_of_string (printValue v).

(** [commitHandler(t, http.StatusOK)]: the server accepts the commit. *)
Definition statusOK : gitlab.CreateCommitOptions → option error := λ _, None.

(** [MustGitlab(t, hf)]: the syncer NewGitlab returns for project 1 and
    branch test when the history file holds [h]; [MustGitlab(t, http.NotFound)]
    is [notFound]. *)
Definition loaded (h : History) : Gitlab :=
  {| pid := 1; branch := "test"; history := h; historyFile := "history.json";
     historyAction := gitlab.FileUpdate; actions := [] |}.

Definition notFound : Gitlab :=
  {| pid := 1; branch := "test"; history := ∅; historyFile := "history.json";
     historyAction := gitlab.FileCreate; actions := [] |}.

Definition blob (uid path sha256 : string) : File :=
  {| UID := uid; Path := path; SHA256 := sha256; content := []; processed := false |}.

(** The record of the tests' history file and the blobs added to it. *)
Definition go1 : File := blob "go1" "/dev/null.json" "12345".
Definition go1_moved : File := blob "go1" "null.json" "54321".
Definition go1_modified : File := blob "go1" "/dev/null.json" "54321".
Definition go1_renamed : File := blob "go1" "null.json" "12345".
Definition go2 : File := blob "go2" "/dev/zero.json" "67890".

(** The record of a history file that has no path member for go1. *)
Definition go1_no_path : File := blob "go1" "" "12345".

Definition history1 : History := {[ "go1" := go1 ]}.
Definition history2 : History := {[ "go1" := go1; "go2" := go2 ]}.
Definition history_no_path : History := {[ "go1" := go1_no_path ]}.

Definition go3 : File := blob "go3" "/dev/full.json" "abcde".

(** A first run: go1 has new content, go3 is new, go2 is gone. *)
Definition firstRun : Gitlab := AddAll (loaded history2) [go1_modified; go3].

(** The syncer of the run after it, on the store the first run left. *)
Definition secondStart : Gitlab :=
  loaded (reload (history (Commit compact ["go1"; "go2"; "go3"] statusOK firstRun).1)).

(** Two blobs of one run that share the id go1, and the syncer of the run
    after it. *)
Definition go1_a : File := blob "go1" "/a.json" "111".
Definition go1_b : File := blob "go1" "/b.json" "222".

Definition repeatedStart : Gitlab :=
  loaded (reload (history (Commit compact ["go1"] statusOK
                             (AddAll notFound [go1_a; go1_b])).1)).

(** A history file whose member go1 holds a record with the uid go2. *)
Definition history_mismatch : History := {[ "go1" := go2 ]}.




(** Library answers for the examples of NewGitlab: a document that does
    not parse, a content that is not base64. *)
Definition unmarshalFails : list byte → History → History * option error :=
  λ _ h, (h, Some "unexpected end of JSON input").

Definition decodeFails : string → list byte * option error :=
  λ _, ([], Some "illegal base64 data at input byte 0").

(** On a concrete store the side conditions are decided by evaluation. *)
Ltac decide_by_evaluation := apply (bool_decide_unpack _); vm_compute; exact I.

(** ** hash: crypto/sha256 and encoding/hex

    SHA-256 as FIPS 180-4 defines it, on 32-bit words held in [N]. *)

Module sha256.

Definition w32 (x : N) : N := x mod 2 ^ 32.

Definition add32 (x y : N) : N := w32 (x + y).

Definition rotr (k x : N) : N :=
  N.lor (N.shiftr x k) (w32 (N.shiftl x (32 - k))).

Definition not32 (x : N) : N := N.lxor x 0xffffffff.

Definition Ch (x y z : N) : N := N.lxor (N.land x y) (N.land (not32 x) z).

Definition Maj (x y z : N) : N :=
  N.lxor (N.lxor (N.land x y) (N.land x z)) (N.land y z).

Definition Sigma0 (x : N) : N := N.lxor (N.lxor (rotr 2 x) (rotr 13 x)) (rotr 22 x).
Definition Sigma1 (x : N) : N := N.lxor (N.lxor (rotr 6 x) (rotr 11 x)) (rotr 25 x).
Definition sigma0 (x : N) : N := N.lxor (N.lxor (rotr 7 x) (rotr 18 x)) (N.shiftr x 3).
Definition sigma1 (x : N) : N := N.lxor (N.lxor (rotr 17 x) (rotr 19 x)) (N.shiftr x 10).

(** The round constants, the table [_K] of the package: the first 32
    bits of the fractional parts of the cube roots of the first 64 primes
    (FIPS 180-4, 4.2.2). *)
Definition isPrime (p : N) : bool :=
  forallb (λ d, negb (p mod d =? 0)%N) (N.of_nat <$> seq 2 (N.to_nat p - 2)).

Definition primes : list N := List.filter isPrime (N.of_nat <$> seq 2 310).

(** The largest [r] below [2 ^ 40] whose cube is at most [n]. *)
Definition cbrt (n : N) : N :=
  foldl (λ r b, let r' := (r + 2 ^ b)%N in
                if (r' * r' * r' <=? n)%N then r' else r)
        0%N (N.of_nat <$> rev (seq 0 40)).

Definition K : list N :=
  Eval vm_compute in (λ p, w32 (cbrt (p * 2 ^ 96))) <$> primes.

(** The eight working variables, and the digest state. *)
Record state := mkState { sa : N; sb : N; sc : N; sd : N; se : N; sf : N; sg : N; sh : N }.

Definition init : state :=
  mkState 0x6a09e667 0xbb67ae85 0x3c6ef372 0xa54ff53a
          0x510e527f 0x9b05688c 0x1f83d9ab 0x5be0cd19.

(** Big-endian words of a block of bytes. *)
Fixpoint words (bs : list N) : list N :=
  match bs with
  | b0 :: b1 :: b2 :: b3 :: bs =>
      (((b0 * 256 + b1) * 256 + b2) * 256 + b3)%N :: words bs
  | _ => []
  end.

(** The message schedule, last word first: [n] more words after the
    sixteen of the block. *)
Fixpoint schedule (n : nat) (rev_w : list N) : list N :=
  match n with
  | O => rev_w
  | S n =>
      let w := add32 (add32 (sigma1 (rev_w !!! 1%nat)) (rev_w !!! 6%nat))
                     (add32 (sigma0 (rev_w !!! 14%nat)) (rev_w !!! 15%nat)) in
      schedule n (w :: rev_w)
  end.

Definition round (s : state) (kw : N * N) : state :=
  let t1 := add32 (add32 (add32 (sh s) (Sigma1 (se s)))
                         (add32 (Ch (se s) (sf s) (sg s)) kw.1)) kw.2 in
  let t2 := add32 (Sigma0 (sa s)) (Maj (sa s) (sb s) (sc s)) in
  mkState (add32 t1 t2) (sa s) (sb s) (sc s) (add32 (sd s) t1) (se s) (sf s) (sg s).

Definition block (s : state) (bs : list N) : state :=
  let w := reverse (schedule 48 (reverse (words bs))) in
  let r := foldl round s (zip K w) in
  mkState (add32 (sa s) (sa r)) (add32 (sb s) (sb r)) (add32 (sc s) (sc r))
          (add32 (sd s) (sd r)) (add32 (se s) (se r)) (add32 (sf s) (sf r))
          (add32 (sg s) (sg r)) (add32 (sh s) (sh r)).

(** Padding: the bit 1, zeros up to 56 modulo 64, the length in bits as a
    big-endian 64-bit number. *)
Definition be (n : nat) (x : N) : list N :=
  (λ i, (N.shiftr x (8 * N.of_nat i)) mod 256)%N <$> reverse (seq 0 n).

Definition pad (len : nat) : list N :=
  128%N :: replicate ((119 - len mod 64) mod 64) 0%N
  ++ be 8 (8 * N.of_nat len).

Fixpoint blocks (n : nat) (s : state) (bs : list N) : state :=
  match n with
  | O => s
  | S n => blocks n (block s (take 64 bs)) (drop 64 bs)
  end.

Definition byte_of_N (x : N) : byte := byte_of_ascii (ascii_of_N x).

(** [h.Write(data); h.Sum(nil)]: the 32 bytes of the digest. *)
Definition Sum (data : list byte) : list byte :=
  let bs := (Byte.to_N <$> data) ++ pad (length data) in
  let s := blocks (length bs / 64) init bs in
  byte_of_N <$>
    (be 4 (sa s) ++ be 4 (sb s) ++ be 4 (sc s) ++ be 4 (sd s)
     ++ be 4 (se s) ++ be 4 (sf s) ++ be 4 (sg s) ++ be 4 (sh s)).

End sha256.

Module hex.

(** [hex.EncodeToString]: two lower-case digits per byte. *)
Definition EncodeToString (src : list byte) : string :=
  foldr (λ b s, String (hexDigit (Byte.to_N b / 16))
                  (String (hexDigit (Byte.to_N b mod 16)) s)) "" src.

End hex.

Definition hash (data : list byte) : string :=
  hex.EncodeToString (sha256.Sum data).

(** ** The flags and setFlagsFromFile

    [Flags] holds the variables the flags of main point to.  The flag
    package, strings.Fields and the file are kept at their interface:
    [intSet] is the Set method of the integer flag value of package flag
    (the value the flag holds afterwards, and the error), [Fields] is
    strings.Fields, [Open] is os.Open followed by the texts [s.Text()] a
    bufio.Scanner yields for the file from its start to its end (lines
    within the scanner's limit). *)

Record Flags := mkFlags {
  gfAPI : string;
  gfToken : string;
  gitAPI : string;
  gitToken : string;
  gitPID : Z;
  gitBranch : string;
  config : string
}.

(** The flags as main declares them. *)
Definition declared : Flags :=
  {| gfAPI := ""; gfToken := ""; gitAPI := ""; gitToken := ""; gitPID := 0;
     gitBranch := "main"; config := "config" |}.

Module flag.

Inductive Value :=
| StringValue (s : string)
| IntValue (i : Z).

(** The flags main declares, by name, in the order of [flag.VisitAll]
    (sorted by name).  Flags declared by another package are not
    modelled. *)
Definition names : list string :=
  ["config"; "git.api"; "git.branch"; "git.pid"; "git.token"; "grafana.api";
   "grafana.token"].

Definition Lookup (name : string) (fl : Flags) : option Value :=
  if decide (name = "grafana.api") then Some (StringValue (gfAPI fl))
  else if decide (name = "grafana.token") then Some (StringValue (gfToken fl))
  else if decide (name = "git.api") then Some (StringValue (gitAPI fl))
  else if decide (name = "git.token") then Some (StringValue (gitToken fl))
  else if decide (name = "git.pid") then Some (IntValue (gitPID fl))
  else if decide (name = "git.branch") then Some (StringValue (gitBranch fl))
  else if decide (name = "config") then Some (StringValue (config fl))
  else None.

(** [flag.Set(name, value)] (the name [Set] is reserved): an unknown
    name is an error; a string flag takes the value; the integer flag is
    left to [intSet]. *)
Definition Set_ (intSet : string → Z → Z * option error) (name value : string)
    (fl : Flags) : Flags * option error :=
  if decide (name = "grafana.api") then
    ({| gfAPI := value; gfToken := gfToken fl; gitAPI := gitAPI fl;
        gitToken := gitToken fl; gitPID := gitPID fl; gitBranch := gitBranch fl;
        config := config fl |}, None)
  else if decide (name = "grafana.token") then
    ({| gfAPI := gfAPI fl; gfToken := value; gitAPI := gitAPI fl;
        gitToken := gitToken fl; gitPID := gitPID fl; gitBranch := gitBranch fl;
        config := config fl |}, None)
  else if decide (name = "git.api") then
    ({| gfAPI := gfAPI fl; gfToken := gfToken fl; gitAPI := value;
        gitToken := gitToken fl; gitPID := gitPID fl; gitBranch := gitBranch fl;
        config := config fl |}, None)
  else if decide (name = "git.token") then
    ({| gfAPI := gfAPI fl; gfToken := gfToken fl; gitAPI := gitAPI fl;
        gitToken := value; gitPID := gitPID fl; gitBranch := gitBranch fl;
        config := config fl |}, None)
  else if decide (name = "git.pid") then
    let r := intSet value (gitPID fl) in
    ({| gfAPI := gfAPI fl; gfToken := gfToken fl; gitAPI := gitAPI fl;
        gitToken := gitToken fl; gitPID := r.1; gitBranch := gitBranch fl;
        config := config fl |}, r.2)
  else if decide (name = "git.branch") then
    ({| gfAPI := gfAPI fl; gfToken := gfToken fl; gitAPI := gitAPI fl;
        gitToken := gitToken fl; gitPID := gitPID fl; gitBranch := value;
        config := config fl |}, None)
  else if decide (name = "config") then
    ({| gfAPI := gfAPI fl; gfToken := gfToken fl; gitAPI := gitAPI fl;
        gitToken := gitToken fl; gitPID := gitPID fl; gitBranch := gitBranch fl;
        config := value |}, None)
  else (fl, Some ("no such flag -" +:+ name)).

End flag.

Section FlagsFromFile.

Variable intSet : string → Z → Z * option error.
Variable Fields : string → list string.
Variable Open : string → error + list string.

(** The body of the scanning loop: a line that has not exactly two fields
    is skipped, the error of flag.Set is dropped. *)
Definition setLine (fl : Flags) (line : string) : Flags :=
  match Fields line with
  | [name; value] => (flag.Set_ intSet name value fl).1
  | _ => fl
  end.

(** The function given to flag.VisitAll, which does not look at the flag
    it is called for: a new scanner on the one open file reads what is left
    of the file, to its end.  The state is the flags and the lines not yet
    read. *)
Definition visit (st : Flags * list string) (_ : string) : Flags * list string :=
  (foldl setLine st.1 st.2, []).

Definition setFlagsFromFile (filename : string) (fl : Flags)
    : Flags * option error :=
  match Open filename with
  | inl err => (fl, Some err)
  | inr lines => ((foldl visit (fl, lines) flag.names).1, None)
  end.

End FlagsFromFile.

(** ** main *)

Module gapi.

(** [gapi.FolderDashboardSearchResponse], the fields main reads. *)
Record FolderDashboardSearchResponse := mkSearchResponse {
  ID : Z;
  UID : string;
  Title : string;
  FolderTitle : string
}.

End gapi.

(** What main logs for a dashboard it skips. *)
Inductive LogEntry :=
| ErrorGetting (d : gapi.FolderDashboardSearchResponse)
| ErrorConverting (d : gapi.FolderDashboardSearchResponse).

(** How main ends: it returns, or log.Fatal prints the message and exits
    with status 1, or it dereferences a nil syncer. *)
Inductive Exit :=
| Returned
| Fatal (msg : string)
| NilSyncer.

Record MainResult := mkMainResult {
  exit : Exit;
  sent : option gitlab.CreateCommitOptions;
  logged : list LogEntry
}.

(** What is outside the program: the file system, the two servers, the
    libraries kept at their interface, and the order [range] takes.
    [Dashboard] is [*gapi.Dashboard], which main only hands on.  An answer
    is a function of the request: a server that answers one request in two
    ways within a run is not modelled. *)
Record World (Dashboard : Type) := mkWorld {
  w_intSet : string → Z → Z * option error;
  w_Fields : string → list string;
  w_Open : string → error + list string;
  w_json_text : json.value → list byte;
  w_json_Unmarshal : list byte → History → History * option error;
  w_base64_DecodeString : string → list byte * option error;
  (* gapi.New(baseURL, Config{APIKey}) *)
  w_gapi_New : string → string → option error;
  (* gitlab.NewClient(token, WithBaseURL(baseURL)) *)
  w_gitlab_NewClient : string → string → option error;
  (* RepositoryFiles.GetFile(pid, file, ref) *)
  w_GetFile : Z → string → string → gitlab.GetFileReturn;
  w_Dashboards : error + list gapi.FolderDashboardSearchResponse;
  w_DashboardByUID : string → error + Dashboard;
  (* json.MarshalIndent of the dashboard, indented by a tab *)
  w_MarshalIndent : Dashboard → error + list byte;
  (* Commits.CreateCommit(pid, opt) *)
  w_CreateCommit : Z → gitlab.CreateCommitOptions → option error;
  w_range : History → list string
}.

Arguments w_intSet {_}.
Arguments w_Fields {_}.
Arguments w_Open {_}.
Arguments w_json_text {_}.
Arguments w_json_Unmarshal {_}.
Arguments w_base64_DecodeString {_}.
Arguments w_gapi_New {_}.
Arguments w_gitlab_NewClient {_}.
Arguments w_GetFile {_}.
Arguments w_Dashboards {_}.
Arguments w_DashboardByUID {_}.
Arguments w_MarshalIndent {_}.
Arguments w_CreateCommit {_}.
Arguments w_range {_}.

Section Main.

Context {Dashboard : Type} (w : World Dashboard).

(** The [File] main builds for a dashboard and its indented JSON. *)
Definition fileOf (d : gapi.FolderDashboardSearchResponse) (data : list byte)
    : File :=
  {| UID := gapi.UID d;
     Path := "/" +:+ gapi.FolderTitle d +:+ "/" +:+ gapi.Title d +:+ ".json";
     SHA256 := hash data;
     content := data;
     processed := false |}.

(** The body of the loop over the dashboards. *)
Definition syncDashboard (st : Gitlab * list LogEntry)
    (d : gapi.FolderDashboardSearchResponse) : Gitlab * list LogEntry :=
  match w_DashboardByUID w (gapi.UID d) with
  | inl _ => (st.1, st.2 ++ [ErrorGetting d])
  | inr b =>
      match w_MarshalIndent w b with
      | inl _ => (st.1, st.2 ++ [ErrorConverting d])
      | inr data => (Add st.1 (fileOf d data), st.2)
      end
  end.

Definition fatal (msg : string) : MainResult :=
  {| exit := Fatal msg; sent := None; logged := [] |}.

(** main, from the flags as flag.Parse left them. *)
Definition main (parsed : Flags) : MainResult :=
  match setFlagsFromFile (w_intSet w) (w_Fields w) (w_Open w)
          (config parsed) parsed with
  | (_, Some err) => fatal err
  | (fl, None) =>
      match w_gapi_New w (gfAPI fl) (gfToken fl) with
      | Some err => fatal ("failed to create grafana client: " +:+ err)
      | None =>
          match NewGitlab (w_json_Unmarshal w) (w_base64_DecodeString w)
                  (w_gitlab_NewClient w (gitToken fl) (gitAPI fl))
                  (w_GetFile w (gitPID fl) "history.json" (gitBranch fl))
                  (gitBranch fl) (gitPID fl) with
          | (_, Some err) => fatal err
          | (None, None) =>
              {| exit := NilSyncer; sent := None; logged := [] |}
          | (Some git, None) =>
              match w_Dashboards w with
              | inl err => fatal err
              | inr dashboards =>
                  let st := foldl syncDashboard (git, []) dashboards in
                  match Commit (w_json_text w) (w_range w (history st.1))
                          (w_CreateCommit w (pid st.1)) st.1 with
                  | (_, CommitSkipped) =>
                      {| exit := Returned; sent := None; logged := st.2 |}
                  | (_, CommitSent opt None) =>
                      {| exit := Returned; sent := Some opt; logged := st.2 |}
                  | (_, CommitSent opt (Some err)) =>
                      {| exit := Fatal err; sent := Some opt; logged := st.2 |}
                  end
              end
          end
      end
  end.

(** What the loop logs for a dashboard: nothing when it is added. *)
Definition logLine (d : gapi.FolderDashboardSearchResponse) : option LogEntry :=
  match w_DashboardByUID w (gapi.UID d) with
  | inl _ => Some (ErrorGetting d)
  | inr b =>
      match w_MarshalIndent w b with
      | inl _ => Some (ErrorConverting d)
      | inr _ => None
      end
  end.

(** The files the loop adds: those of the dashboards that were fetched
    and converted, in the order of the listing. *)
Definition fetched (d : gapi.FolderDashboardSearchResponse) : option File :=
  match w_DashboardByUID w (gapi.UID d) with
  | inl _ => None
  | inr b =>
      match w_MarshalIndent w b with
      | inl _ => None
      | inr data => Some (fileOf d data)
      end
  end.

(** The four steps before the loop, for the flags [fl] the configuration
    file leaves, the syncer [git] and the listing [ds]. *)
Definition started (parsed fl : Flags) (git : Gitlab)
    (ds : list gapi.FolderDashboardSearchResponse) : Prop :=
  setFlagsFromFile (w_intSet w) (w_Fields w) (w_Open w) (config parsed) parsed
  = (fl, None)
  ∧ w_gapi_New w (gfAPI fl) (gfToken fl) = None
  ∧ NewGitlab (w_json_Unmarshal w) (w_base64_DecodeString w)
      (w_gitlab_NewClient w (gitToken fl) (gitAPI fl))
      (w_GetFile w (gitPID fl) "history.json" (gitBranch fl))
      (gitBranch fl) (gitPID fl)
    = (Some git, None)
  ∧ w_Dashboards w = inr ds.

End Main.

(** A path as main builds it begins with a slash. *)
Definition rooted (p : string) : Prop := String.get 0 p = Some "/"%char.

Definition rooted_paths (h : History) : Prop :=
  map_Forall (λ _ f, rooted (Path f)) h.

(** The actions Add can queue for a blob at a rooted path: Create, Move
    or Update of that path with the content, a Move from a rooted path. *)
Definition content_action (a : gitlab.CommitActionOptions) : Prop :=
  (gitlab.Action a = Some gitlab.FileCreate ∧ gitlab.PreviousPath a = None
   ∨ gitlab.Action a = Some gitlab.FileUpdate ∧ gitlab.PreviousPath a = None
   ∨ gitlab.Action a = Some gitlab.FileMove
     ∧ ∃ p, gitlab.PreviousPath a = Some p ∧ rooted p)
  ∧ (∃ p, gitlab.FilePath a = Some p ∧ rooted p)
  ∧ is_Some (gitlab.Content a).

(** The actions the sweep queues over a store of rooted paths. *)
Definition delete_action (a : gitlab.CommitActionOptions) : Prop :=
  gitlab.Action a = Some gitlab.FileDelete
  ∧ (∃ p, gitlab.FilePath a = Some p ∧ rooted p)
  ∧ gitlab.PreviousPath a = None
  ∧ gitlab.Content a = None.

(** The actions Add appends for a blob. *)
Definition queued (g : Gitlab) (B : File) : list gitlab.CommitActionOptions :=
  drop (length (actions g)) (actions (Add g B)).

(** ** A configuration file, a Grafana and a Gitlab for the examples

    The answers of the libraries and of the two servers in one setting:
    the configuration file names the branch test and the project 1, the
    repository holds the history file of [history2], and Grafana lists
    three dashboards, of which the second cannot be fetched. *)

(** strings.Fields on ASCII text: the fields between runs of the six
    ASCII white-space characters. *)
Definition isSpace (a : ascii) : bool :=
  bool_decide (N_of_ascii a ∈ [9; 10; 11; 12; 13; 32]%N).

Fixpoint fieldsFrom (field : string) (s : string) : list string :=
  match s with
  | EmptyString => if decide (field = "") then [] else [field]
  | String a s' =>
      if isSpace a
      then (if decide (field = "") then [] else [field]) ++ fieldsFrom "" s'
      else fieldsFrom (field +:+ String a "") s'
  end.

Definition asciiFields (s : string) : list string := fieldsFrom "" s.

(** What the integer flag makes of the two texts of the examples: the
    parsed number, or the number zero and an error. *)
Definition pidSet (s : string) (old : Z) : Z * option error :=
  if decide (s = "1") then (1%Z, None)
  else if decide (s = "7") then (7%Z, None)
  else (0%Z, Some "parse error").

Definition configLines : list string :=
  ["git.branch main"; "# the project"; "git.pid 1"; "git.branch test";
   "unknown.flag x"].

Definition testOpen (filename : string) : error + list string :=
  if decide (filename = "config") then inr configLines
  else inl ("open " +:+ filename +:+ ": no such file or directory").

(** The history file of the repository, as the server hands it out: the
    document of [history2] in base64. *)
Definition historyContent : string :=
  "eyJnbzEiOnsidWlkIjoiZ28xIiwicGF0aCI6Ii9kZXYvbnVsbC5qc29uIiwic2hhMjU2IjoiMTIzNDUifSwiZ28yIjp7InVpZCI6ImdvMiIsInBhdGgiOiIvZGV2L3plcm8uanNvbiIsInNoYTI1NiI6IjY3ODkwIn19".

(** The decoders on the history file of a repository that holds the store
    [h] under the base64 text [content]. *)
Definition testDecodeString (h : History) (content s : string)
    : list byte * option error :=
  if decide (s = content) then (json_Marshal compact h, None)
  else decodeFails s.

Definition testUnmarshal (h : History) (data : list byte) (old : History)
    : History * option error :=
  if decide (String.string_of_list_byte data
             = String.string_of_list_byte (json_Marshal compact h))
  then (reload h ∪ old, None)
  else unmarshalFails data old.

Definition testGetFile (content : string) (pid : Z) (file ref : string)
    : gitlab.GetFileReturn :=
  if decide (pid = 1%Z ∧ file = "history.json" ∧ ref = "test")
  then gitlab.GetFileOk content
  else gitlab.GetFileErr (Some {| gitlab.StatusCode := 404 |}) "404 Not Found".

Definition dashNull : gapi.FolderDashboardSearchResponse :=
  {| gapi.ID := 1; gapi.UID := "go1"; gapi.Title := "null";
     gapi.FolderTitle := "dev" |}.
Definition dashZero : gapi.FolderDashboardSearchResponse :=
  {| gapi.ID := 2; gapi.UID := "go2"; gapi.Title := "zero";
     gapi.FolderTitle := "dev" |}.
Definition dashFull : gapi.FolderDashboardSearchResponse :=
  {| gapi.ID := 3; gapi.UID := "go3"; gapi.Title := "full";
     gapi.FolderTitle := "dev" |}.

Definition testDashboards : list gapi.FolderDashboardSearchResponse :=
  [dashNull; dashZero; dashFull].

(** A dashboard is its JSON text here; go2 cannot be fetched. *)
Definition testDashboardByUID (uid : string) : error + string :=
  if decide (uid = "go2") then inl "status: 500" else inr "{}".

Definition serverWorld (h : History) (content : string) : World string :=
  {| w_intSet := pidSet;
     w_Fields := asciiFields;
     w_Open := testOpen;
     w_json_text := compact;
     w_json_Unmarshal := testUnmarshal h;
     w_base64_DecodeString := testDecodeString h content;
     w_gapi_New := λ _ _, None;
     w_gitlab_NewClient := λ _ _, None;
     w_GetFile := testGetFile content;
     w_Dashboards := inr testDashboards;
     w_DashboardByUID := testDashboardByUID;
     w_MarshalIndent := λ b, inr (String.list_byte_of_string b);
     w_CreateCommit := λ _, statusOK;
     w_range := λ h, (map_to_list h).*1 |}.

Definition testWorld : World string := serverWorld history2 historyContent.

(** The store the run of main in [testWorld] leaves, and the world after
    that run: the repository holds the history file the run committed. *)
Definition historyAfter : History :=
  history (Commit compact ["go1"; "go2"; "go3"] statusOK
             (AddAll (loaded history2)
                (omap (fetched testWorld) testDashboards))).1.

Definition historyContentAfter : string :=
  "eyJnbzEiOnsidWlkIjoiZ28xIiwicGF0aCI6Ii9kZXYvbnVsbC5qc29uIiwic2hhMjU2IjoiNDQxMzZmYTM1NWIzNjc4YTExNDZhZDE2ZjdlODY0OWU5NGZiNGZjMjFmZTc3ZTgzMTBjMDYwZjYxY2FhZmY4YSJ9LCJnbzMiOnsidWlkIjoiZ28zIiwicGF0aCI6Ii9kZXYvZnVsbC5qc29uIiwic2hhMjU2IjoiNDQxMzZmYTM1NWIzNjc4YTExNDZhZDE2ZjdlODY0OWU5NGZiNGZjMjFmZTc3ZTgzMTBjMDYwZjYxY2FhZmY4YSJ9fQ==".

Definition testWorldAfter : World string :=
  serverWorld historyAfter historyContentAfter.

(** The flags after the configuration file was read. *)
Definition testFlags : Flags :=
  {| gfAPI := ""; gfToken := ""; gitAPI := ""; gitToken := ""; gitPID := 1;
     gitBranch := "test"; config := "config" |}.

(** * Properties *)

(** ** Add on one blob *)

Lemma moved_true (f hf : File) :
  moved f hf = true ↔ Path f ≠ Path hf ∧ UID f = UID hf ∧ SHA256 f ≠ SHA256 hf.
Proof.
  unfold moved. rewrite !andb_true_iff, !bool_decide_eq_true. tauto.
Qed.

Lemma modified_true (f hf : File) :
  modified f hf = true ↔ Path f = Path hf ∧ UID f = UID hf ∧ SHA256 f ≠ SHA256 hf.
Proof.
  unfold modified. rewrite !andb_true_iff, !bool_decide_eq_true. tauto.
Qed.

Lemma moved_same_fingerprint (f hf : File) :
  SHA256 hf = SHA256 f → moved f hf = false.
Proof.
  intros E. apply not_true_is_false. rewrite moved_true. intros (_ & _ & N).
  congruence.
Qed.

Lemma modified_same_fingerprint (f hf : File) :
  SHA256 hf = SHA256 f → modified f hf = false.
Proof.
  intros E. apply not_true_is_false. rewrite modified_true. intros (_ & _ & N).
  congruence.
Qed.

Lemma Add_unchanged (g : Gitlab) (B hf : File) :
  history g !! UID B = Some hf →
  SHA256 hf = SHA256 B →
  Add g B = with_history g (<[UID B := set_processed hf]> (history g)).
Proof.
  intros L E. unfold Add. rewrite L.
  by rewrite moved_same_fingerprint, modified_same_fingerprint.
Qed.

Lemma Add_moved (g : Gitlab) (B hf : File) :
  history g !! UID B = Some hf →
  moved B hf = true →
  Add g B = add g B gitlab.FileMove (Path hf).
Proof. intros L M. unfold Add. by rewrite L, M. Qed.

(** ** The store under Add *)

Lemma keyed_by_uid_insert (h : History) (f : File) :
  keyed_by_uid h → keyed_by_uid (<[UID f := f]> h).
Proof. intros K. by apply map_Forall_insert_2. Qed.

Lemma Add_keyed_by_uid (g : Gitlab) (B : File) :
  keyed_by_uid (history g) → keyed_by_uid (history (Add g B)).
Proof.
  intros K. unfold Add.
  pose proof (keyed_by_uid_insert _ (set_processed B) K) as KB.
  destruct (history g !! UID B) as [hf|] eqn:L; [|exact KB].
  destruct (moved B hf); [exact KB|].
  destruct (modified B hf); [exact KB|].
  simpl. apply map_Forall_insert_2; [|done]. simpl. by apply K in L.
Qed.

Lemma AddAll_keyed_by_uid (blobs : list File) (g : Gitlab) :
  keyed_by_uid (history g) → keyed_by_uid (history (AddAll g blobs)).
Proof.
  revert g. induction blobs as [|B blobs IH]; intros g K; [done|].
  apply IH. by apply Add_keyed_by_uid.
Qed.

(** Add touches the entry of the blob's id and no other. *)
Lemma Add_lookup_ne (g : Gitlab) (B : File) (k : string) :
  k ≠ UID B → history (Add g B) !! k = history g !! k.
Proof.
  intros N. unfold Add.
  destruct (history g !! UID B) as [hf|];
    repeat case_match; simpl; by rewrite lookup_insert_ne.
Qed.

Lemma AddAll_lookup_ne (blobs : list File) (g : Gitlab) (k : string) :
  k ∉ UID <$> blobs → history (AddAll g blobs) !! k = history g !! k.
Proof.
  revert g. induction blobs as [|B blobs IH]; intros g N; [done|].
  simpl in *. apply not_elem_of_cons in N as [N1 N2].
  unfold AddAll in *. simpl. rewrite IH by done. by apply Add_lookup_ne.
Qed.

(** Add leaves the name of the history file and the action chosen for
    it at load time as they are. *)
Lemma AddAll_fields (blobs : list File) (g : Gitlab) :
  historyAction (AddAll g blobs) = historyAction g
  ∧ historyFile (AddAll g blobs) = historyFile g.
Proof.
  revert g. induction blobs as [|B blobs IH]; intros g; [done|].
  unfold AddAll in *. simpl. destruct (IH (Add g B)) as [-> ->].
  unfold Add. by repeat case_match.
Qed.

(** After Add the entry of the blob's id is marked. *)
Lemma Add_lookup_eq (g : Gitlab) (B : File) :
  ∃ f, history (Add g B) !! UID B = Some f ∧ processed f = true.
Proof.
  unfold Add.
  destruct (history g !! UID B) as [hf|];
    repeat case_match; simpl; rewrite lookup_insert_eq; eauto.
Qed.

(** In a store keyed by uid the fingerprint under the blob's id is the
    blob's after Add. *)
Lemma Add_lookup_fingerprint (g : Gitlab) (B : File) :
  keyed_by_uid (history g) →
  ∃ f, history (Add g B) !! UID B = Some f ∧ SHA256 f = SHA256 B.
Proof.
  intros K. unfold Add.
  destruct (history g !! UID B) as [hf|] eqn:L;
    [|simpl; rewrite lookup_insert_eq; eauto].
  destruct (moved B hf) eqn:M; [simpl; rewrite lookup_insert_eq; eauto|].
  destruct (modified B hf) eqn:U; [simpl; rewrite lookup_insert_eq; eauto|].
  simpl. rewrite lookup_insert_eq. eexists; split; [done|]. simpl.
  apply K in L. simpl in L.
  destruct (decide (SHA256 B = SHA256 hf)) as [|N]; [done|].
  destruct (decide (Path B = Path hf)).
  - assert (modified B hf = true) by (by apply modified_true). congruence.
  - assert (moved B hf = true) by (by apply moved_true). congruence.
Qed.

Lemma Add_marked_are (seen : list string) (g : Gitlab) (B : File) :
  marked_are seen (history g) →
  marked_are (seen ++ [UID B]) (history (Add g B)).
Proof.
  intros I k f L. destruct (decide (k = UID B)) as [->|N].
  - destruct (Add_lookup_eq g B) as (f' & L' & P). rewrite L in L'.
    injection L' as <-. split; [|done]. intros _.
    apply elem_of_app. right. by apply list_elem_of_singleton.
  - rewrite Add_lookup_ne in L by done. apply I in L. simpl in L.
    rewrite L, elem_of_app, list_elem_of_singleton. tauto.
Qed.

Lemma AddAll_marked_are (blobs : list File) (seen : list string) (g : Gitlab) :
  marked_are seen (history g) →
  marked_are (seen ++ (UID <$> blobs)) (history (AddAll g blobs)).
Proof.
  revert seen g. induction blobs as [|B blobs IH]; intros seen g I.
  - simpl. by rewrite app_nil_r.
  - simpl. rewrite cons_middle, app_assoc. apply IH. by apply Add_marked_are.
Qed.

Lemma unprocessed_marked_are (h : History) :
  unprocessed h → marked_are [] h.
Proof.
  intros U k f L. apply U in L. simpl in L. rewrite L.
  split; [done|]. by intros ?%elem_of_nil.
Qed.

(** ** The orphan sweep *)

Lemma deleteOrphan_orphan (g : Gitlab) (k : string) :
  keyed_by_uid (history g) →
  deleteOrphan g k =
    match orphan (history g) k with
    | Some f => with_history (with_actions g (actions g ++ [deleteAction f]))
                             (delete k (history g))
    | None => g
    end.
Proof.
  intros K. unfold deleteOrphan, orphan.
  destruct (history g !! k) as [f|] eqn:L; [|done].
  destruct (processed f); [done|]. apply K in L. simpl in L. by rewrite L.
Qed.

Lemma orphan_ext (h1 h2 : History) (k : string) :
  h1 !! k = h2 !! k → orphan h1 k = orphan h2 k.
Proof. unfold orphan. by intros ->. Qed.

Lemma orphans_ext (h1 h2 : History) (order : list string) :
  (∀ k, k ∈ order → h1 !! k = h2 !! k) →
  orphans h1 order = orphans h2 order.
Proof.
  induction order as [|k order IH]; intros E; [done|].
  unfold orphans in *. csimpl.
  rewrite (orphan_ext h1 h2 k) by apply E, list_elem_of_here.
  rewrite IH; [done|]. intros k' ?. apply E. by apply list_elem_of_further.
Qed.

(** The sweep over a store keyed by uid: the unmarked records met on the
    way are deleted, each with one Delete action, in the order of the
    visit; nothing else changes. *)
Lemma deleteOrphans_keyed (order : list string) (g : Gitlab) :
  NoDup order →
  keyed_by_uid (history g) →
  deleteOrphans order g =
    with_history
      (with_actions g (actions g ++ (deleteAction <$> orphans (history g) order)))
      (filter (λ kf, kf.1 ∉ order ∨ processed kf.2 = true) (history g)).
Proof.
  revert g. induction order as [|k order IH]; intros g ND K.
  - simpl. rewrite app_nil_r. destruct g as [p b h hf ha a]. simpl.
    unfold with_history, with_actions. simpl. f_equal.
    symmetry. apply map_filter_id. intros i x _. left. apply not_elem_of_nil.
  - apply NoDup_cons in ND as [Nk ND]. simpl.
    rewrite deleteOrphan_orphan by done.
    unfold orphans at 1. csimpl. fold (orphans (history g) order).
    destruct (orphan (history g) k) as [f|] eqn:O.
    + rewrite IH; [|done|by apply map_Forall_delete].
      unfold with_history, with_actions. simpl. f_equal.
      * apply map_eq. intros i. apply option_eq. intros x.
        rewrite !map_lookup_filter_Some. simpl.
        unfold orphan in O. destruct (decide (i = k)) as [->|N].
        -- rewrite lookup_delete_eq. split; [naive_solver|].
           intros [L [C|P]]; [by destruct C; left|].
           rewrite L in O. by rewrite P in O.
        -- rewrite lookup_delete_ne by done. rewrite not_elem_of_cons. naive_solver.
      * rewrite (orphans_ext (delete k (history g)) (history g) order).
        -- by rewrite <-app_assoc.
        -- intros k' Hk'. apply lookup_delete_ne. by intros ->.
    + rewrite IH by done.
      unfold with_history, with_actions. simpl. f_equal.
      apply map_eq. intros i. apply option_eq. intros x.
      rewrite !map_lookup_filter_Some. simpl.
      unfold orphan in O. rewrite not_elem_of_cons.
      split; [|naive_solver]. intros [L [C|P]]; [|naive_solver].
      split; [done|]. destruct (decide (i = k)) as [->|N]; [|by left].
      right. rewrite L in O. by destruct (processed x).
Qed.

(** Visited in an order of [range], the deleted records are the unmarked
    ones, each once. *)
Lemma orphans_range_order (h : History) (order : list string) :
  range_order h order →
  orphans h order ≡ₚ
    (map_to_list (filter (λ kf, processed kf.2 = false) h)).*2.
Proof.
  intros R. unfold orphans. rewrite R.
  rewrite map_filter_alt.
  rewrite map_to_list_to_map.
  2:{ eapply sublist_NoDup; [apply (NoDup_fst_map_to_list h)|].
      apply fmap_sublist, sublist_filter. }
  assert (∀ l : list (string * File), (∀ kf, kf ∈ l → h !! kf.1 = Some kf.2) →
    omap (orphan h) l.*1 = (filter (λ kf, processed kf.2 = false) l).*2) as Hl.
  { induction l as [|[k f] l IH]; intros E; [done|].
    csimpl. unfold orphan at 1.
    pose proof (E (k, f) (list_elem_of_here _ _)) as Ek. simpl in Ek.
    rewrite Ek, IH by (intros ??; apply E; by apply list_elem_of_further).
    rewrite filter_cons. simpl. destruct (processed f); by case_decide. }
  rewrite Hl; [done|]. intros [k f]. apply elem_of_map_to_list.
Qed.

Lemma deleteOrphans_keeps_marked (order : list string) (g : Gitlab)
    (k : string) (f : File) :
  keyed_by_uid (history g) →
  history g !! k = Some f →
  processed f = true →
  history (deleteOrphans order g) !! k = Some f.
Proof.
  revert g. induction order as [|k' order IH]; intros g K L P; [done|].
  simpl. rewrite deleteOrphan_orphan by done.
  destruct (orphan (history g) k') as [f'|] eqn:O; [|by apply IH].
  apply IH; simpl; [by apply map_Forall_delete| |done].
  rewrite lookup_delete_ne; [done|]. intros <-.
  unfold orphan in O. rewrite L, P in O. discriminate.
Qed.

Lemma deleteOrphans_keyed_by_uid (order : list string) (g : Gitlab) :
  keyed_by_uid (history g) → keyed_by_uid (history (deleteOrphans order g)).
Proof.
  revert g. induction order as [|k order IH]; intros g K; [done|].
  simpl. apply IH. rewrite deleteOrphan_orphan by done.
  destruct (orphan (history g) k); [by apply map_Forall_delete|done].
Qed.

(** X2: the keying of the store is an invariant of a run: it holds of the
    empty store, Add and the sweep keep it. *)
Theorem run_keyed_by_uid (g : Gitlab) (blobs : list File) (order : list string) :
  keyed_by_uid (history g) →
  keyed_by_uid (history (AddAll g blobs))
  ∧ keyed_by_uid (history (deleteOrphans order (AddAll g blobs))).
Proof.
  intros K. split; [by apply AddAll_keyed_by_uid|].
  by apply deleteOrphans_keyed_by_uid, AddAll_keyed_by_uid.
Qed.

(** ** Add, case by case *)

(** C6: a blob whose id is absent from the store gets exactly one Create
    action carrying its path and content, is stored under its id with its
    id, path and fingerprint, and is marked processed. *)
Theorem Add_absent_creates (g : Gitlab) (B : File) :
  history g !! UID B = None →
  actions (Add g B) =
    actions g ++
      [{| gitlab.Action := Some gitlab.FileCreate;
          gitlab.FilePath := Some (Path B);
          gitlab.PreviousPath := None;
          gitlab.Content := Some (String.string_of_list_byte (content B)) |}]
  ∧ history (Add g B) =
      <[UID B := {| UID := UID B; Path := Path B; SHA256 := SHA256 B;
                    content := content B; processed := true |}]> (history g).
Proof. intros L. unfold Add. rewrite L. done. Qed.

(** C4: a blob whose fingerprint is the one of the record under its id
    yields no action, whatever the two paths are (a pure rename too); the
    record is marked processed, so the orphan sweep neither deletes it nor
    gives it a Delete action. *)
Theorem Add_same_fingerprint_no_action (g : Gitlab) (B hf : File) :
  history g !! UID B = Some hf →
  SHA256 hf = SHA256 B →
  actions (Add g B) = actions g
  ∧ history (Add g B) = <[UID B := set_processed hf]> (history g)
  ∧ processed (set_processed hf) = true
  ∧ orphan (history (Add g B)) (UID B) = None
  ∧ ∀ order, keyed_by_uid (history g) →
      history (deleteOrphans order (Add g B)) !! UID B = Some (set_processed hf).
Proof.
  intros L E. rewrite (Add_unchanged g B hf L E). simpl.
  split; [done|]. split; [done|]. split; [done|]. split.
  - unfold orphan. by rewrite lookup_insert_eq.
  - intros order K.
    apply deleteOrphans_keeps_marked; simpl; [|by rewrite lookup_insert_eq|done].
    apply map_Forall_insert_2; [|done]. simpl. by apply K in L.
Qed.

(** C3, as the code has it: a blob whose path and fingerprint both differ
    from those of the record under its id (a record carrying that id) gets
    exactly one Move action to the blob's path; the action names the
    record's path as PreviousPath when that path is not empty and has no
    PreviousPath when it is empty; the record is overwritten with the
    blob's id, path and fingerprint. *)
Theorem Add_moved_moves (g : Gitlab) (B hf : File) :
  history g !! UID B = Some hf →
  UID hf = UID B →
  Path hf ≠ Path B →
  SHA256 hf ≠ SHA256 B →
  actions (Add g B) =
    actions g ++
      [{| gitlab.Action := Some gitlab.FileMove;
          gitlab.FilePath := Some (Path B);
          gitlab.PreviousPath :=
            if decide (Path hf = "") then None else Some (Path hf);
          gitlab.Content := Some (String.string_of_list_byte (content B)) |}]
  ∧ history (Add g B) =
      <[UID B := {| UID := UID B; Path := Path B; SHA256 := SHA256 B;
                    content := content B; processed := true |}]> (history g).
Proof.
  intros L EU NP NS.
  rewrite (Add_moved g B hf L) by (apply moved_true; naive_solver).
  unfold add, previousPath. simpl. split; [|done].
  do 3 f_equal. destruct (decide (Path hf = "")) as [->|N]; [done|].
  by rewrite bool_decide_eq_true_2.
Qed.

(** C10: when the fingerprint of the blob is the one of the record under
    its id and the paths differ, Add sets the processed flag of the record
    and nothing else: path, fingerprint and every other entry stay, no
    action is queued, and what the history file would hold is unchanged.
    A later blob of that id with another fingerprint, at a path other than
    the stored one, is then taken as moved from the stored path. *)
Theorem Add_rename_keeps_record (g : Gitlab) (B hf : File) :
  history g !! UID B = Some hf →
  SHA256 hf = SHA256 B →
  Path hf ≠ Path B →
  history (Add g B) =
    <[UID B := {| UID := UID hf; Path := Path hf; SHA256 := SHA256 hf;
                  content := content hf; processed := true |}]> (history g)
  ∧ actions (Add g B) = actions g
  ∧ persisted <$> history (Add g B) = persisted <$> history g
  ∧ ∀ g' r B',
      history g' !! UID B = Some r →
      persisted r = persisted hf →
      UID hf = UID B →
      UID B' = UID B →
      Path B' ≠ Path hf →
      SHA256 B' ≠ SHA256 hf →
      moved B' r = true
      ∧ Add g' B' = add g' B' gitlab.FileMove (Path hf).
Proof.
  intros L E NP. rewrite (Add_unchanged g B hf L E). simpl.
  split; [done|]. split; [done|]. split.
  - rewrite fmap_insert. apply insert_id. by rewrite lookup_fmap, L.
  - intros g' r B' Lr Er EU EB NP' NS'. injection Er as EU' EP ES.
    assert (moved B' r = true) as M
      by (apply moved_true; repeat split; congruence).
    split; [done|]. rewrite <-EP. apply Add_moved; [congruence|done].
Qed.

(** X1: a blob at the path of the record under its id, with another
    fingerprint, gets exactly one Update action and overwrites the
    record. *)
Theorem Add_modified_updates (g : Gitlab) (B hf : File) :
  history g !! UID B = Some hf →
  UID hf = UID B →
  Path hf = Path B →
  SHA256 hf ≠ SHA256 B →
  actions (Add g B) =
    actions g ++
      [{| gitlab.Action := Some gitlab.FileUpdate;
          gitlab.FilePath := Some (Path B);
          gitlab.PreviousPath := None;
          gitlab.Content := Some (String.string_of_list_byte (content B)) |}]
  ∧ history (Add g B) = <[UID B := set_processed B]> (history g).
Proof.
  intros L EU EP NS. unfold Add. rewrite L.
  assert (moved B hf = false) as ->.
  { apply not_true_is_false. rewrite moved_true. naive_solver. }
  assert (modified B hf = true) as -> by (apply modified_true; naive_solver).
  done.
Qed.

(** ** The orphan sweep of a run *)

Lemma range_order_NoDup (h : History) (order : list string) :
  range_order h order → NoDup order.
Proof. intros R. unfold range_order in R. rewrite R. apply NoDup_fst_map_to_list. Qed.

Lemma range_order_elem_of (h : History) (order : list string) (k : string) :
  range_order h order → k ∈ order ↔ is_Some (h !! k).
Proof.
  intros R. unfold range_order in R. rewrite R.
  rewrite list_elem_of_fmap. split.
  - intros [[k' f] [-> L%elem_of_map_to_list]]. eauto.
  - intros [f L]. exists (k, f). split; [done|]. by apply elem_of_map_to_list.
Qed.

(** Over an order of [range] the sweep leaves the marked records. *)
Lemma deleteOrphans_range_order (order : list string) (g : Gitlab) :
  range_order (history g) order →
  keyed_by_uid (history g) →
  history (deleteOrphans order g) =
    filter (λ kf, processed kf.2 = true) (history g)
  ∧ actions (deleteOrphans order g) =
      actions g ++ (deleteAction <$> orphans (history g) order).
Proof.
  intros R K.
  rewrite (deleteOrphans_keyed order g (range_order_NoDup _ _ R) K). simpl.
  split; [|done]. apply map_filter_ext. intros k f L. simpl.
  split; [|by right]. intros [N|P]; [|done]. destruct N.
  apply (range_order_elem_of _ _ _ R). eauto.
Qed.

(** After a run on an unmarked store the unmarked records are those whose
    id was not added, as they were loaded. *)
Lemma AddAll_unmarked (g : Gitlab) (blobs : list File) :
  unprocessed (history g) →
  filter (λ kf, processed kf.2 = false) (history (AddAll g blobs)) =
  filter (λ kf, kf.1 ∉ UID <$> blobs) (history g).
Proof.
  intros U. apply map_eq. intros k. apply option_eq. intros f.
  rewrite !map_lookup_filter_Some. simpl.
  pose proof (AddAll_marked_are blobs [] g (unprocessed_marked_are _ U)) as M.
  simpl in M. split.
  - intros [L P]. assert (k ∉ UID <$> blobs) as N.
    { intros I. apply M in L. simpl in L. apply L in I. congruence. }
    split; [|done]. by rewrite AddAll_lookup_ne in L.
  - intros [L N]. rewrite AddAll_lookup_ne by done. split; [done|].
    by apply U in L.
Qed.

(** C7: after the blobs of a run were added to a loaded store, the sweep
    queues exactly one Delete action, carrying the record's path, for each
    record whose id was not added, and removes these records; the records
    whose id was added stay as they are and get no Delete action. *)
Theorem deleteOrphans_deletes_unseen (g : Gitlab) (blobs : list File)
    (order : list string) :
  keyed_by_uid (history g) →
  unprocessed (history g) →
  range_order (history (AddAll g blobs)) order →
  (∃ unseen,
      unseen ≡ₚ (map_to_list (filter (λ kf, kf.1 ∉ UID <$> blobs) (history g))).*2
      ∧ actions (deleteOrphans order (AddAll g blobs)) =
          actions (AddAll g blobs) ++
            ((λ f, {| gitlab.Action := Some gitlab.FileDelete;
                      gitlab.FilePath := Some (Path f);
                      gitlab.PreviousPath := None;
                      gitlab.Content := None |}) <$> unseen))
  ∧ (∀ k, k ∉ UID <$> blobs →
       history (deleteOrphans order (AddAll g blobs)) !! k = None)
  ∧ (∀ k, k ∈ UID <$> blobs →
       history (deleteOrphans order (AddAll g blobs)) !! k =
       history (AddAll g blobs) !! k).
Proof.
  intros K U R.
  pose proof (AddAll_keyed_by_uid blobs g K) as K1.
  destruct (deleteOrphans_range_order order _ R K1) as [Eh Ea].
  pose proof (AddAll_marked_are blobs [] g (unprocessed_marked_are _ U)) as M.
  simpl in M. split; [|split].
  - exists (orphans (history (AddAll g blobs)) order). split; [|done].
    rewrite <-(AddAll_unmarked g blobs U). by apply orphans_range_order.
  - intros k N. rewrite Eh. apply map_lookup_filter_None.
    destruct (history (AddAll g blobs) !! k) as [f|] eqn:L; [|by left].
    right. intros f' [= <-]. simpl. apply M in L. simpl in L.
    rewrite L. done.
  - intros k I. rewrite Eh. apply option_eq. intros f.
    rewrite map_lookup_filter_Some. simpl. split; [by intros [? _]|].
    intros L. split; [done|]. apply M in L. by apply L.
Qed.

(** ** Commit *)

Section Commit.

Context (json_text : json.value → list byte).

#[local] Abbreviation Commit := (Commit json_text).
#[local] Abbreviation historyFileAction := (historyFileAction json_text).
#[local] Abbreviation updateHistory := (updateHistory json_text).
#[local] Abbreviation historyTail := (historyTail json_text).

Lemma updateHistory_history (g : Gitlab) :
  history (updateHistory g) = history g.
Proof. unfold updateHistory. by case_bool_decide. Qed.

Lemma Commit_history (order : list string)
    (CreateCommit : gitlab.CreateCommitOptions → option error) (g : Gitlab) :
  history (Commit order CreateCommit g).1 = history (deleteOrphans order g).
Proof.
  unfold Commit. case_bool_decide; [done|]. simpl. apply updateHistory_history.
Qed.

Lemma Commit_batch (order : list string)
    (CreateCommit : gitlab.CreateCommitOptions → option error) (g : Gitlab) :
  batch (Commit order CreateCommit g).2 = actions (Commit order CreateCommit g).1.
Proof.
  unfold Commit. case_bool_decide as E; simpl; [|done].
  symmetry. by apply length_zero_iff_nil.
Qed.

Lemma deleteOrphans_fields (order : list string) (g : Gitlab) :
  historyAction (deleteOrphans order g) = historyAction g
  ∧ historyFile (deleteOrphans order g) = historyFile g.
Proof.
  revert g. induction order as [|k order IH]; intros g; [done|].
  simpl. destruct (IH (deleteOrphan g k)) as [-> ->].
  unfold deleteOrphan. by repeat case_match.
Qed.

(** What Commit sends: nothing when no action is queued after the sweep,
    else the queued actions and, when the store is not empty, the action on
    the history file. *)
Lemma Commit_sends (order : list string)
    (CreateCommit : gitlab.CreateCommitOptions → option error) (g : Gitlab) :
  ((Commit order CreateCommit g).2 = CommitSkipped
   ↔ actions (deleteOrphans order g) = [])
  ∧ batch (Commit order CreateCommit g).2 =
      actions (deleteOrphans order g) ++ historyTail (deleteOrphans order g).
Proof.
  unfold Commit, historyTail. generalize (deleteOrphans order g). intros swept.
  destruct (actions swept) as [|a l] eqn:A.
  - rewrite bool_decide_eq_true_2 by done.
    split; [done|]. case_decide as D; [by destruct D as [[] _]|done].
  - rewrite bool_decide_eq_false_2 by done.
    split; [done|]. unfold updateHistory.
    case_bool_decide as S; case_decide as D; simpl; rewrite A.
    + apply map_size_empty_iff in S. by destruct D as [_ []].
    + by rewrite app_nil_r.
    + done.
    + apply map_size_non_empty_iff in S. destruct D. done.
Qed.

(** C1, as the code has it: Commit is skipped exactly when no action is
    queued after the sweep; otherwise the queued actions are sent, followed
    by one action on the history file (the action chosen at load time, the
    serialized store as content) exactly when the store is not empty after
    the sweep.  When the sweep has emptied the store the actions are sent
    without a history-file action. *)
Theorem Commit_appends_history_action (order : list string)
    (CreateCommit : gitlab.CreateCommitOptions → option error) (g : Gitlab) :
  let swept := deleteOrphans order g in
  let r := Commit order CreateCommit g in
  (r.2 = CommitSkipped ↔ actions swept = [])
  ∧ batch r.2 =
      actions swept ++
        (if decide (actions swept ≠ [] ∧ history swept ≠ ∅)
         then [{| gitlab.Action := Some (historyAction g);
                  gitlab.FilePath := Some (historyFile g);
                  gitlab.PreviousPath := None;
                  gitlab.Content :=
                    Some (String.string_of_list_byte
                            (json_text (json.MarshalValue (history swept)))) |}]
         else []).
Proof.
  cbv zeta. destruct (Commit_sends order CreateCommit g) as [S B].
  split; [done|]. rewrite B. unfold historyTail, historyFileAction, json_Marshal.
  by destruct (deleteOrphans_fields order g) as [-> ->].
Qed.

(** Two sweeps of one state in two orders of [range]: the same store is
    left, and the Delete actions are the same up to their order. *)
Lemma deleteOrphans_two_orders (g : Gitlab) (o1 o2 : list string) :
  keyed_by_uid (history g) →
  range_order (history g) o1 →
  range_order (history g) o2 →
  history (deleteOrphans o1 g) = history (deleteOrphans o2 g)
  ∧ actions (deleteOrphans o1 g) =
      actions g ++ (deleteAction <$> orphans (history g) o1)
  ∧ actions (deleteOrphans o2 g) =
      actions g ++ (deleteAction <$> orphans (history g) o2)
  ∧ orphans (history g) o1 ≡ₚ orphans (history g) o2.
Proof.
  intros K R1 R2.
  destruct (deleteOrphans_range_order o1 g R1 K) as [-> ->].
  destruct (deleteOrphans_range_order o2 g R2 K) as [-> ->].
  repeat split. unfold orphans. apply omap_Permutation.
  unfold range_order in *. by rewrite R1, R2.
Qed.

(** C2, as the code has it: two runs over the same store and the same
    blobs leave the same store and send the same actions up to the order of
    the Delete actions of the sweep: first the actions of the blobs in the
    order of the blobs, then one Delete action per orphan in the order in
    which [range] met them, then the same history-file action, if any. *)
Theorem Commit_deterministic_up_to_sweep_order (g : Gitlab)
    (blobs : list File) (o1 o2 : list string)
    (CreateCommit1 CreateCommit2 : gitlab.CreateCommitOptions → option error) :
  keyed_by_uid (history g) →
  range_order (history (AddAll g blobs)) o1 →
  range_order (history (AddAll g blobs)) o2 →
  let r1 := Commit o1 CreateCommit1 (AddAll g blobs) in
  let r2 := Commit o2 CreateCommit2 (AddAll g blobs) in
  history r1.1 = history r2.1
  ∧ ∃ orphans1 orphans2 tail,
      orphans1 ≡ₚ orphans2
      ∧ (length tail ≤ 1)%nat
      ∧ batch r1.2 =
          actions (AddAll g blobs) ++ (deleteAction <$> orphans1) ++ tail
      ∧ batch r2.2 =
          actions (AddAll g blobs) ++ (deleteAction <$> orphans2) ++ tail.
Proof.
  intros K R1 R2. cbv zeta.
  pose proof (AddAll_keyed_by_uid blobs g K) as K1.
  destruct (deleteOrphans_two_orders _ o1 o2 K1 R1 R2) as (Eh & A1 & A2 & P).
  split; [by rewrite !Commit_history|].
  destruct (Commit_sends o1 CreateCommit1 (AddAll g blobs)) as [_ B1].
  destruct (Commit_sends o2 CreateCommit2 (AddAll g blobs)) as [_ B2].
  exists (orphans (history (AddAll g blobs)) o1),
         (orphans (history (AddAll g blobs)) o2),
         (historyTail (deleteOrphans o1 (AddAll g blobs))).
  split; [exact P|]. split; [unfold historyTail; case_decide; simpl; lia|].
  rewrite B1, B2, A1, A2, <-!app_assoc. split; [done|]. do 2 f_equal.
  unfold historyTail, historyFileAction. rewrite <-Eh, A1, A2.
  destruct (deleteOrphans_fields o1 (AddAll g blobs)) as [-> ->].
  destruct (deleteOrphans_fields o2 (AddAll g blobs)) as [-> ->].
  assert (orphans (history (AddAll g blobs)) o1 = []
          ↔ orphans (history (AddAll g blobs)) o2 = []) as N.
  { split; intros E; rewrite E in P.
    - symmetry. by apply Permutation_nil_l.
    - by apply Permutation_nil_r. }
  assert (∀ l : list File,
            actions (AddAll g blobs) ++ (deleteAction <$> l) = []
            ↔ actions (AddAll g blobs) = [] ∧ l = []) as N'.
  { intros l. destruct (actions (AddAll g blobs)), l; naive_solver. }
  repeat case_decide; try done; rewrite ?N' in *; naive_solver.
Qed.

(** ** Idempotence *)

Lemma deleteOrphans_all_marked (order : list string) (g : Gitlab) :
  map_Forall (λ _ f, processed f = true) (history g) →
  deleteOrphans order g = g.
Proof.
  intros M. induction order as [|k order IH]; [done|].
  simpl. assert (deleteOrphan g k = g) as ->; [|done].
  unfold deleteOrphan.
  destruct (history g !! k) as [f|] eqn:L; [|done].
  apply M in L. simpl in L. by rewrite L.
Qed.

(** Blobs whose fingerprints are the stored ones queue no action. *)
Lemma AddAll_same_fingerprints (blobs : list File) (g : Gitlab) :
  (∀ B, B ∈ blobs → ∃ f, history g !! UID B = Some f ∧ SHA256 f = SHA256 B) →
  actions (AddAll g blobs) = actions g.
Proof.
  revert g. induction blobs as [|B blobs IH]; intros g F; [done|].
  destruct (F B) as (hf & L & E); [apply list_elem_of_here|].
  unfold AddAll in *. simpl. rewrite (Add_unchanged g B hf L E).
  rewrite IH; [done|]. intros B' I. simpl.
  destruct (F B') as (f' & L' & E'); [by apply list_elem_of_further|].
  destruct (decide (UID B' = UID B)) as [EU|NU].
  - rewrite EU, lookup_insert_eq. rewrite EU, L in L'. injection L' as <-. eauto.
  - rewrite lookup_insert_ne by done. eauto.
Qed.

(** After the blobs of a run were added to a store keyed by uid, each
    blob's fingerprint is the one stored under its id. *)
Lemma AddAll_fingerprints (blobs : list File) (g : Gitlab) :
  keyed_by_uid (history g) →
  NoDup (UID <$> blobs) →
  ∀ B, B ∈ blobs →
    ∃ f, history (AddAll g blobs) !! UID B = Some f ∧ SHA256 f = SHA256 B.
Proof.
  revert g. induction blobs as [|B0 blobs IH]; intros g K ND B I.
  { by apply elem_of_nil in I. }
  rewrite fmap_cons in ND. apply NoDup_cons in ND as [N0 ND].
  apply elem_of_cons in I as [->|I].
  - unfold AddAll. simpl. fold (AddAll (Add g B0) blobs).
    rewrite AddAll_lookup_ne by done. by apply Add_lookup_fingerprint.
  - apply IH; [by apply Add_keyed_by_uid|done|done].
Qed.

(** C5: a run that started on a loaded store (keyed by uid, nothing
    marked) with blobs of pairwise distinct ids has left a store; a second
    run that loads this store and is given blobs with the same ids, paths
    and fingerprints queues no action, its sweep deletes nothing, and its
    Commit is skipped. *)
Theorem second_run_commits_nothing (g g' : Gitlab) (blobs blobs' : list File)
    (order order' : list string)
    (CreateCommit CreateCommit' : gitlab.CreateCommitOptions → option error) :
  keyed_by_uid (history g) →
  unprocessed (history g) →
  NoDup (UID <$> blobs) →
  range_order (history (AddAll g blobs)) order →
  history g' = reload (history (Commit order CreateCommit (AddAll g blobs)).1) →
  actions g' = [] →
  persisted <$> blobs' = persisted <$> blobs →
  actions (AddAll g' blobs') = []
  ∧ deleteOrphans order' (AddAll g' blobs') = AddAll g' blobs'
  ∧ Commit order' CreateCommit' (AddAll g' blobs')
    = (AddAll g' blobs', CommitSkipped).
Proof.
  intros K U ND R Hg' Ag' Eb.
  pose proof (AddAll_keyed_by_uid blobs g K) as K1.
  pose proof (AddAll_marked_are blobs [] g (unprocessed_marked_are _ U)) as M1.
  simpl in M1.
  rewrite Commit_history in Hg'.
  destruct (deleteOrphans_range_order order _ R K1) as [Eh _].
  rewrite Eh in Hg'. clear Eh.
  assert (UID <$> blobs' = UID <$> blobs) as Eids.
  { change UID with (UID ∘ persisted). by rewrite !list_fmap_compose, Eb. }
  assert (∀ B', B' ∈ blobs' →
            ∃ f, history g' !! UID B' = Some f ∧ SHA256 f = SHA256 B') as F'.
  { intros B' I.
    assert (persisted B' ∈ persisted <$> blobs) as I'
      by (rewrite <-Eb; by apply list_elem_of_fmap_2).
    apply list_elem_of_fmap in I' as (B & EB & IB).
    injection EB as EU EP ES.
    destruct (AddAll_fingerprints blobs g K ND B IB) as (f & L & E).
    exists (persisted f). split; [|simpl; congruence].
    rewrite Hg'. unfold reload. rewrite lookup_fmap, EU.
    erewrite map_lookup_filter_Some_2; [done|exact L|].
    simpl. apply M1 in L. simpl in L. apply L. by apply list_elem_of_fmap_2. }
  assert (∀ k f, history g' !! k = Some f →
            k ∈ UID <$> blobs' ∧ processed f = false) as D'.
  { intros k f. rewrite Hg'. unfold reload. rewrite lookup_fmap.
    destruct (filter _ _ !! k) as [f0|] eqn:L; [|done].
    intros [= <-]. split; [|done].
    apply map_lookup_filter_Some in L as [L P]. simpl in P.
    rewrite Eids. apply M1 in L. simpl in L. by apply L. }
  assert (actions (AddAll g' blobs') = []) as A'
    by (by rewrite AddAll_same_fingerprints).
  assert (map_Forall (λ _ f, processed f = true) (history (AddAll g' blobs')))
    as M'.
  { intros k f L.
    assert (marked_are (UID <$> blobs') (history (AddAll g' blobs'))) as M2.
    { apply (AddAll_marked_are blobs' [] g'), unprocessed_marked_are.
      intros k0 f0 L0. by apply D' in L0 as [_ ?]. }
    pose proof (M2 k f L) as Mk. simpl in Mk. apply Mk.
    destruct (decide (k ∈ UID <$> blobs')) as [|N]; [done|].
    rewrite AddAll_lookup_ne in L by done. by apply D' in L as [? _]. }
  split; [done|]. split; [by apply deleteOrphans_all_marked|].
  unfold Commit. rewrite deleteOrphans_all_marked by done.
  rewrite bool_decide_eq_true_2; [done|]. by rewrite A'.
Qed.

End Commit.

(** ** The history file *)

Lemma UnmarshalFile_MarshalFile (f : File) (saved : option json.UnmarshalTypeError) :
  json.UnmarshalFile (json.MarshalFile f) saved = (Some (persisted f), saved).
Proof. done. Qed.

Lemma UnmarshalEntry_MarshalFile (l : list (string * File))
    (m : gmap string (option File)) :
  foldl json.UnmarshalEntry (m, None) (prod_map id json.MarshalFile <$> l) =
  (foldl (λ m kf, <[kf.1 := Some (persisted kf.2)]> m) m l, None).
Proof.
  revert m. induction l as [|[k f] l IH]; intros m; [done|].
  simpl. unfold json.UnmarshalEntry at 2. simpl. apply IH.
Qed.

(** Inserting the entries of a list without repeated keys, one after the
    other, builds the map of the list. *)
Lemma foldl_insert_list_to_map {A B} (f : A → B) (l : list (string * A))
    (m : gmap string B) :
  NoDup l.*1 →
  (∀ k, k ∈ l.*1 → m !! k = None) →
  foldl (λ m kx, <[kx.1 := f kx.2]> m) m l = list_to_map (prod_map id f <$> l) ∪ m.
Proof.
  revert m. induction l as [|[k x] l IH]; intros m ND F.
  - simpl. by rewrite (left_id_L ∅ (∪)).
  - rewrite fmap_cons in ND. apply NoDup_cons in ND as [Nk ND]. simpl in *.
    rewrite IH; [|done|].
    + rewrite <-insert_union_r, insert_union_l; [done|].
      apply not_elem_of_list_to_map_1. rewrite <-list_fmap_compose.
      by change (fst ∘ prod_map id f) with (@fst string A).
    + intros k' I. rewrite lookup_insert_ne; [|by intros ->].
      apply F. by apply list_elem_of_further.
Qed.

Lemma UnmarshalValue_MarshalValue (h : History) :
  json.UnmarshalValue (json.MarshalValue h) = (Some (Some ∘ persisted <$> h), None).
Proof.
  unfold json.UnmarshalValue, json.MarshalValue.
  rewrite UnmarshalEntry_MarshalFile. simpl. do 2 f_equal.
  assert (merge_sort json.key_le (map_to_list h) ≡ₚ map_to_list h) as P
    by apply merge_sort_Permutation.
  rewrite (foldl_insert_list_to_map (Some ∘ persisted)).
  - rewrite (right_id_L ∅ (∪)).
    rewrite (list_to_map_proper _ (prod_map id (Some ∘ persisted) <$> map_to_list h)).
    + by rewrite <-map_to_list_fmap, list_to_map_to_list.
    + rewrite <-list_fmap_compose.
      change (fst ∘ prod_map id (Some ∘ persisted)) with (@fst string File).
      rewrite P. apply NoDup_fst_map_to_list.
    + by rewrite P.
  - rewrite P. apply NoDup_fst_map_to_list.
  - intros k _. apply lookup_empty.
Qed.

(** The store a later run loads is the one [reload] gives, no pointer
    nil. *)
Lemma UnmarshalValue_MarshalValue_reload (h : History) :
  json.UnmarshalValue (json.MarshalValue h) = (Some (Some <$> reload h), None).
Proof.
  rewrite UnmarshalValue_MarshalValue. unfold reload.
  by rewrite <-map_fmap_compose.
Qed.


(** ** Loading the history *)

Section Load.

Context (json_Unmarshal : list byte → History → History * option error).
Context (base64_DecodeString : string → list byte * option error).

#[local] Abbreviation parseHistory := (parseHistory json_Unmarshal base64_DecodeString).
#[local] Abbreviation NewGitlab := (NewGitlab json_Unmarshal base64_DecodeString).

(** The syncer NewGitlab builds before it reads the history. *)
Lemma NewGitlab_parseHistory (GetFile : gitlab.GetFileReturn)
    (branch : string) (pid : Z) :
  NewGitlab None GetFile branch pid =
    match parseHistory GetFile
            {| pid := pid; branch := branch; history := ∅;
               historyFile := "history.json";
               historyAction := gitlab.FileUpdate; actions := [] |} with
    | (_, Some err) => (None, Some (Errorf "gitlab: error parsing history: " err))
    | (g, None) => (Some g, None)
    end.
Proof. done. Qed.

(** A history file that is read and decoded is the store of the syncer,
    and the history file will be updated. *)
Lemma NewGitlab_loaded (fContent : string) (data : list byte) (h : History)
    (branch : string) (pid : Z) :
  base64_DecodeString fContent = (data, None) →
  json_Unmarshal data ∅ = (h, None) →
  NewGitlab None (gitlab.GetFileOk fContent) branch pid =
    (Some {| pid := pid; branch := branch; history := h;
             historyFile := "history.json";
             historyAction := gitlab.FileUpdate; actions := [] |}, None).
Proof.
  intros D U. rewrite NewGitlab_parseHistory. unfold parseHistory.
  rewrite D. simpl. by rewrite U.
Qed.

(** C9: when the fetch of the history file fails with a 404 response,
    NewGitlab returns a syncer with an empty store whose history action is
    Create; when the fetch fails otherwise (no response, or a response with
    another status), or the base64 decoding fails, or json.Unmarshal fails,
    NewGitlab returns the error and no syncer, so nothing can be added or
    committed. *)
Theorem NewGitlab_history_load (branch : string) (pid : Z) :
  (∀ resp err,
      gitlab.StatusCode resp = 404%Z →
      NewGitlab None (gitlab.GetFileErr (Some resp) err) branch pid =
        (Some {| pid := pid; branch := branch; history := ∅;
                 historyFile := "history.json";
                 historyAction := gitlab.FileCreate; actions := [] |}, None))
  ∧ (∀ err,
      NewGitlab None (gitlab.GetFileErr None err) branch pid =
        (None, Some (Errorf "gitlab: error parsing history: " err)))
  ∧ (∀ resp err,
      gitlab.StatusCode resp ≠ 404%Z →
      NewGitlab None (gitlab.GetFileErr (Some resp) err) branch pid =
        (None, Some (Errorf "gitlab: error parsing history: " err)))
  ∧ (∀ fContent data err,
      base64_DecodeString fContent = (data, Some err) →
      NewGitlab None (gitlab.GetFileOk fContent) branch pid =
        (None, Some (Errorf "gitlab: error parsing history: " err)))
  ∧ (∀ fContent data h err,
      base64_DecodeString fContent = (data, None) →
      json_Unmarshal data ∅ = (h, Some err) →
      NewGitlab None (gitlab.GetFileOk fContent) branch pid =
        (None, Some (Errorf "gitlab: error parsing history: " err))).
Proof.
  split; [|split; [|split; [|split]]].
  - intros resp err S. rewrite NewGitlab_parseHistory. unfold parseHistory.
    by rewrite bool_decide_eq_true_2.
  - done.
  - intros resp err S. rewrite NewGitlab_parseHistory. unfold parseHistory.
    by rewrite bool_decide_eq_false_2.
  - intros fContent data err D. rewrite NewGitlab_parseHistory.
    unfold parseHistory. by rewrite D.
  - intros fContent data h err D U. rewrite NewGitlab_parseHistory.
    unfold parseHistory. rewrite D. simpl. by rewrite U.
Qed.

End Load.

(** ** The code on the scenarios of the tests *)

Lemma range_order1_go1 : range_order history1 ["go1"].
Proof. unfold range_order. decide_by_evaluation. Defined.

Lemma range_order2_go1_go2 : range_order history2 ["go1"; "go2"].
Proof. unfold range_order. decide_by_evaluation. Defined.

Lemma range_order2_go2_go1 : range_order history2 ["go2"; "go1"].
Proof. unfold range_order. decide_by_evaluation. Defined.

Lemma range_order_firstRun : range_order (history firstRun) ["go1"; "go2"; "go3"].
Proof. unfold range_order. decide_by_evaluation. Defined.

Lemma keyed_by_uid_history2 : keyed_by_uid history2.
Proof. decide_by_evaluation. Defined.

Lemma unprocessed_history2 : unprocessed history2.
Proof. decide_by_evaluation. Defined.

(** C1 fails when the sweep empties the store: with go1 in the history
    and no blob added, the sweep queues the Delete of go1's file, and Commit
    sends this one action, with no action on history.json after it. *)
Lemma Commit_orphans_only_no_history_action :
  range_order (history (loaded history1)) ["go1"]
  ∧ actions (deleteOrphans ["go1"] (loaded history1)) =
      [{| gitlab.Action := Some gitlab.FileDelete;
          gitlab.FilePath := Some "/dev/null.json";
          gitlab.PreviousPath := None;
          gitlab.Content := None |}]
  ∧ batch (Commit compact ["go1"] statusOK (loaded history1)).2 =
      actions (deleteOrphans ["go1"] (loaded history1))
  ∧ historyFileAction compact (deleteOrphans ["go1"] (loaded history1))
      ∉ batch (Commit compact ["go1"] statusOK (loaded history1)).2.
Proof.
  split; [exact range_order1_go1|]. split; [by vm_compute|].
  split; [by vm_compute|]. vm_compute.
  intros I. apply list_elem_of_singleton in I. discriminate I.
Qed.

(** C2 fails with two orphans: the two orders in which [range] can visit
    go1 and go2 give two different lists of actions. *)
Lemma Commit_two_orders_two_batches :
  range_order (history (AddAll (loaded history2) [])) ["go1"; "go2"]
  ∧ range_order (history (AddAll (loaded history2) [])) ["go2"; "go1"]
  ∧ batch (Commit compact ["go1"; "go2"] statusOK (AddAll (loaded history2) [])).2 =
      [deleteAction go1; deleteAction go2]
  ∧ batch (Commit compact ["go2"; "go1"] statusOK (AddAll (loaded history2) [])).2 =
      [deleteAction go2; deleteAction go1]
  ∧ batch (Commit compact ["go1"; "go2"] statusOK (AddAll (loaded history2) [])).2
    ≠ batch (Commit compact ["go2"; "go1"] statusOK (AddAll (loaded history2) [])).2.
Proof.
  split; [exact range_order2_go1_go2|]. split; [exact range_order2_go2_go1|].
  split; [by vm_compute|]. split; [by vm_compute|]. by vm_compute.
Qed.

(** C3 fails for a record whose stored path is empty: the Move action has
    no PreviousPath. *)
Lemma Add_moved_from_empty_path :
  history (loaded history_no_path) !! UID go1_moved = Some go1_no_path
  ∧ Path go1_no_path ≠ Path go1_moved
  ∧ SHA256 go1_no_path ≠ SHA256 go1_moved
  ∧ actions (Add (loaded history_no_path) go1_moved) =
      [{| gitlab.Action := Some gitlab.FileMove;
          gitlab.FilePath := Some "null.json";
          gitlab.PreviousPath := None;
          gitlab.Content := Some "" |}]
  ∧ ∀ a, a ∈ actions (Add (loaded history_no_path) go1_moved) →
         gitlab.PreviousPath a ≠ Some (Path go1_no_path).
Proof.
  split; [by vm_compute|]. split; [done|]. split; [done|].
  split; [by vm_compute|]. vm_compute.
  intros a I. apply list_elem_of_singleton in I. by subst a.
Qed.

(** C5 fails for two blobs that share an id and differ in content: the
    first run, from the empty store, creates the file and moves it, and
    leaves the second blob in the store; the run after it, with the same
    two blobs, moves the file twice and commits. *)
Lemma second_run_repeated_id :
  range_order (history (AddAll notFound [go1_a; go1_b])) ["go1"]
  ∧ (gitlab.Action <$>
       batch (Commit compact ["go1"] statusOK (AddAll notFound [go1_a; go1_b])).2)
    = [Some gitlab.FileCreate; Some gitlab.FileMove; Some gitlab.FileCreate]
  ∧ history repeatedStart = {[ "go1" := go1_b ]}
  ∧ (gitlab.Action <$> actions (AddAll repeatedStart [go1_a; go1_b]))
    = [Some gitlab.FileMove; Some gitlab.FileMove]
  ∧ (Commit compact ["go1"] statusOK (AddAll repeatedStart [go1_a; go1_b])).2
    ≠ CommitSkipped.
Proof.
  split; [unfold range_order; decide_by_evaluation|].
  split; [by vm_compute|]. split; [by vm_compute|]. split; by vm_compute.
Qed.

(** ** The theorems at the scenarios of the tests *)

(** The "create" test: go1 added to the empty store. *)
Lemma Add_absent_creates_go1 :
  history notFound !! UID go1 = None
  ∧ actions (Add notFound go1) =
      [{| gitlab.Action := Some gitlab.FileCreate;
          gitlab.FilePath := Some "/dev/null.json";
          gitlab.PreviousPath := None;
          gitlab.Content := Some "" |}]
  ∧ history (Add notFound go1) = {[ "go1" := set_processed go1 ]}.
Proof.
  split; [reflexivity|]. exact (Add_absent_creates notFound go1 eq_refl).
Defined.

(** The "nothing" test, and a rename with the same content. *)
Lemma Add_same_fingerprint_go1_renamed :
  (history (loaded history1) !! UID go1_renamed = Some go1
   ∧ SHA256 go1 = SHA256 go1_renamed)
  ∧ actions (Add (loaded history1) go1_renamed) = []
  ∧ history (Add (loaded history1) go1_renamed) !! "go1" = Some (set_processed go1).
Proof.
  assert (history (loaded history1) !! UID go1_renamed = Some go1) as L
    by reflexivity.
  split; [by split|].
  destruct (Add_same_fingerprint_no_action (loaded history1) go1_renamed go1 L eq_refl)
    as (A & H & _).
  split; [exact A|]. rewrite H. apply lookup_insert_eq.
Defined.

(** The "move" test. *)
Lemma Add_moved_moves_go1 :
  (history (loaded history1) !! UID go1_moved = Some go1
   ∧ UID go1 = UID go1_moved
   ∧ Path go1 ≠ Path go1_moved
   ∧ SHA256 go1 ≠ SHA256 go1_moved)
  ∧ actions (Add (loaded history1) go1_moved) =
      [{| gitlab.Action := Some gitlab.FileMove;
          gitlab.FilePath := Some "null.json";
          gitlab.PreviousPath := Some "/dev/null.json";
          gitlab.Content := Some "" |}]
  ∧ history (Add (loaded history1) go1_moved) =
      <["go1" := set_processed go1_moved]> history1.
Proof.
  assert (history (loaded history1) !! UID go1_moved = Some go1) as L
    by reflexivity.
  assert (Path go1 ≠ Path go1_moved) as NP by discriminate.
  assert (SHA256 go1 ≠ SHA256 go1_moved) as NS by discriminate.
  split; [done|].
  exact (Add_moved_moves (loaded history1) go1_moved go1 L eq_refl NP NS).
Defined.

(** The "modified" test. *)
Lemma Add_modified_updates_go1 :
  (history (loaded history1) !! UID go1_modified = Some go1
   ∧ UID go1 = UID go1_modified
   ∧ Path go1 = Path go1_modified
   ∧ SHA256 go1 ≠ SHA256 go1_modified)
  ∧ gitlab.Action <$> actions (Add (loaded history1) go1_modified) =
      [Some gitlab.FileUpdate].
Proof.
  assert (history (loaded history1) !! UID go1_modified = Some go1) as L
    by reflexivity.
  assert (SHA256 go1 ≠ SHA256 go1_modified) as NS by discriminate.
  split; [done|].
  destruct (Add_modified_updates (loaded history1) go1_modified go1 L eq_refl
              eq_refl NS) as [-> _].
  reflexivity.
Defined.

(** A rename with the same content, then new content at the new path. *)
Lemma Add_rename_keeps_record_go1 :
  (history (loaded history1) !! UID go1_renamed = Some go1
   ∧ SHA256 go1 = SHA256 go1_renamed
   ∧ Path go1 ≠ Path go1_renamed)
  ∧ history (Add (loaded history1) go1_renamed) !! "go1" = Some (set_processed go1)
  ∧ Add (Add (loaded history1) go1_renamed) go1_moved =
      add (Add (loaded history1) go1_renamed) go1_moved gitlab.FileMove
          "/dev/null.json".
Proof.
  assert (history (loaded history1) !! UID go1_renamed = Some go1) as L
    by reflexivity.
  assert (Path go1 ≠ Path go1_renamed) as NP by discriminate.
  split; [done|].
  destruct (Add_rename_keeps_record (loaded history1) go1_renamed go1 L eq_refl NP)
    as (H & _ & _ & Later).
  split; [rewrite H; apply lookup_insert_eq|].
  apply (Later _ (set_processed go1)); done.
Defined.

(** The sweep of the first run deletes go2 and nothing else. *)
Lemma deleteOrphans_deletes_unseen_firstRun :
  (keyed_by_uid (history (loaded history2))
   ∧ unprocessed (history (loaded history2))
   ∧ range_order (history (AddAll (loaded history2) [go1_modified; go3]))
       ["go1"; "go2"; "go3"])
  ∧ history (deleteOrphans ["go1"; "go2"; "go3"] firstRun) !! "go2" = None
  ∧ history (deleteOrphans ["go1"; "go2"; "go3"] firstRun) !! "go1" =
      history firstRun !! "go1".
Proof.
  split; [exact (conj keyed_by_uid_history2
                   (conj unprocessed_history2 range_order_firstRun))|].
  destruct (deleteOrphans_deletes_unseen (loaded history2) [go1_modified; go3]
              ["go1"; "go2"; "go3"] keyed_by_uid_history2 unprocessed_history2
              range_order_firstRun) as (_ & Unseen & Seen).
  split; [apply Unseen|apply Seen]; decide_by_evaluation.
Defined.

(** The two orders of the sweep over go1 and go2. *)
Lemma Commit_deterministic_up_to_sweep_order_go1_go2 :
  (keyed_by_uid (history (loaded history2))
   ∧ range_order (history (AddAll (loaded history2) [])) ["go1"; "go2"]
   ∧ range_order (history (AddAll (loaded history2) [])) ["go2"; "go1"])
  ∧ history (Commit compact ["go1"; "go2"] statusOK (AddAll (loaded history2) [])).1 =
    history (Commit compact ["go2"; "go1"] statusOK (AddAll (loaded history2) [])).1.
Proof.
  split; [exact (conj keyed_by_uid_history2
                   (conj range_order2_go1_go2 range_order2_go2_go1))|].
  exact (proj1 (Commit_deterministic_up_to_sweep_order compact (loaded history2) []
                  ["go1"; "go2"] ["go2"; "go1"] statusOK statusOK
                  keyed_by_uid_history2 range_order2_go1_go2 range_order2_go2_go1)).
Defined.

(** The run after the first run, with the same blobs. *)
Lemma second_run_commits_nothing_firstRun :
  (keyed_by_uid (history (loaded history2))
   ∧ unprocessed (history (loaded history2))
   ∧ NoDup (UID <$> [go1_modified; go3])
   ∧ range_order (history (AddAll (loaded history2) [go1_modified; go3]))
       ["go1"; "go2"; "go3"])
  ∧ actions (AddAll secondStart [go1_modified; go3]) = []
  ∧ Commit compact ["go3"; "go1"] statusOK (AddAll secondStart [go1_modified; go3]) =
      (AddAll secondStart [go1_modified; go3], CommitSkipped).
Proof.
  assert (NoDup (UID <$> [go1_modified; go3])) as ND by decide_by_evaluation.
  split; [exact (conj keyed_by_uid_history2
                   (conj unprocessed_history2 (conj ND range_order_firstRun)))|].
  destruct (second_run_commits_nothing compact (loaded history2) secondStart
              [go1_modified; go3] [go1_modified; go3]
              ["go1"; "go2"; "go3"] ["go3"; "go1"] statusOK statusOK
              keyed_by_uid_history2 unprocessed_history2 ND range_order_firstRun
              eq_refl eq_refl eq_refl) as (A & _ & C).
  by split.
Defined.

(** The "oneFileChangeTwoActions" test: one action for the file, one for
    the history. *)
Lemma Commit_appends_history_action_go1_modified :
  length (batch (Commit compact ["go1"] statusOK (Add (loaded history1) go1_modified)).2)
  = 2.
Proof.
  destruct (Commit_appends_history_action compact ["go1"] statusOK
              (Add (loaded history1) go1_modified)) as [_ B].
  rewrite B. by vm_compute.
Defined.


(** The "create" test starts from a history file that is not there. *)
Lemma NewGitlab_history_load_not_found :
  NewGitlab unmarshalFails decodeFails None
    (gitlab.GetFileErr (Some {| gitlab.StatusCode := 404 |}) "404 Not Found")
    "test" 1
  = (Some notFound, None)
  ∧ NewGitlab unmarshalFails decodeFails None (gitlab.GetFileOk "%%%") "test" 1
    = (None, Some "gitlab: error parsing history: illegal base64 data at input byte 0").
Proof.
  destruct (NewGitlab_history_load unmarshalFails decodeFails "test" 1)
    as (NotFound & _ & _ & Decode & _).
  split.
  - exact (NotFound {| gitlab.StatusCode := 404 |} "404 Not Found" eq_refl).
  - exact (Decode "%%%" [] "illegal base64 data at input byte 0" eq_refl).
Defined.



(** The stores of the first run are keyed by uid. *)
Lemma run_keyed_by_uid_firstRun :
  keyed_by_uid (history (loaded history2))
  ∧ keyed_by_uid (history (deleteOrphans ["go1"; "go2"; "go3"] firstRun)).
Proof.
  split; [exact keyed_by_uid_history2|].
  exact (proj2 (run_keyed_by_uid (loaded history2) [go1_modified; go3]
                  ["go1"; "go2"; "go3"] keyed_by_uid_history2)).
Defined.

(** ** Outside the invariant

    What the sweep does with a store that is not keyed by uid. *)

(** A record stored under another key than its uid: the sweep queues its
    Delete action and deletes the key named by the uid, so the record
    stays. *)
Lemma deleteOrphans_mismatched_key :
  range_order history_mismatch ["go1"]
  ∧ actions (deleteOrphans ["go1"] (loaded history_mismatch)) = [deleteAction go2]
  ∧ history (deleteOrphans ["go1"] (loaded history_mismatch)) = history_mismatch.
Proof.
  split; [unfold range_order; decide_by_evaluation|]. split; by vm_compute.
Qed.

(** * The rest of main.go *)

(** ** hash *)

Lemma EncodeToString_length (src : list byte) :
  String.length (hex.EncodeToString src) = 2 * length src.
Proof. induction src as [|b src IH]; [done|]. simpl. rewrite IH. lia. Qed.

Lemma Sum_length (data : list byte) : length (sha256.Sum data) = 32.
Proof. unfold sha256.Sum. by rewrite length_fmap. Qed.

Lemma hexDigit_digit (n : N) :
  (n < 16)%N → hexDigit n ∈ String.list_ascii_of_string "0123456789abcdef".
Proof.
  intros B.
  assert (Forall (λ n, hexDigit n ∈ String.list_ascii_of_string "0123456789abcdef")
            (N.of_nat <$> seq 0 16)) as F by decide_by_evaluation.
  rewrite Forall_forall in F. apply F.
  apply list_elem_of_fmap. exists (N.to_nat n).
  split; [by rewrite N2Nat.id|]. apply elem_of_seq. lia.
Qed.

Lemma hexDigit_inj (n m : N) :
  (n < 16)%N → (m < 16)%N → hexDigit n = hexDigit m → n = m.
Proof.
  intros Bn Bm E. apply (f_equal N_of_ascii) in E. unfold hexDigit in E.
  destruct (N.ltb_spec n 10), (N.ltb_spec m 10);
    do 2 rewrite N_ascii_embedding in E by lia; lia.
Qed.

Lemma to_N_inj (a b : byte) : Byte.to_N a = Byte.to_N b → a = b.
Proof.
  intros E. pose proof (Byte.of_to_N a) as Ha. rewrite E, Byte.of_to_N in Ha.
  congruence.
Qed.

Lemma EncodeToString_inj (src1 src2 : list byte) :
  hex.EncodeToString src1 = hex.EncodeToString src2 → src1 = src2.
Proof.
  revert src2. induction src1 as [|a src1 IH]; intros [|b src2] E;
    try done; simpl in E.
  injection E as Hhi Hlo E.
  pose proof (Byte.to_N_bounded a). pose proof (Byte.to_N_bounded b).
  apply hexDigit_inj in Hhi; [|apply N.Div0.div_lt_upper_bound; lia..].
  apply hexDigit_inj in Hlo; [|apply N.mod_lt; lia..].
  f_equal; [|by apply IH]. apply to_N_inj.
  rewrite (N.div_mod (Byte.to_N a) 16), (N.div_mod (Byte.to_N b) 16) by lia.
  by rewrite Hhi, Hlo.
Qed.

(** X5: the fingerprint main stores: always 64 characters, each a lower-case
    hexadecimal digit. *)
Theorem hash_format (data : list byte) :
  String.length (hash data) = 64
  ∧ Forall (λ c, c ∈ String.list_ascii_of_string "0123456789abcdef")
      (String.list_ascii_of_string (hash data)).
Proof.
  unfold hash. split; [by rewrite EncodeToString_length, Sum_length|].
  induction (sha256.Sum data) as [|b src IH]; [constructor|].
  simpl. pose proof (Byte.to_N_bounded b).
  constructor; [|constructor; [|exact IH]]; apply hexDigit_digit.
  - apply N.Div0.div_lt_upper_bound. lia.
  - apply N.mod_lt. lia.
Qed.

(** X6: two contents have the same fingerprint exactly when they have the
    same SHA-256 digest: the hexadecimal encoding loses nothing. *)
Theorem hash_eq_iff (data1 data2 : list byte) :
  hash data1 = hash data2 ↔ sha256.Sum data1 = sha256.Sum data2.
Proof.
  unfold hash. split; [apply EncodeToString_inj|by intros ->].
Qed.

(** The computed round constants are those of the table of the package:
    64 words, from 428a2f98 to c67178f2. *)
Lemma K_table :
  length sha256.K = 64
  ∧ take 4 sha256.K = [0x428a2f98; 0x71374491; 0xb5c0fbcf; 0xe9b5dba5]%N
  ∧ drop 60 sha256.K = [0x90befffa; 0xa4506ceb; 0xbef9a3f7; 0xc67178f2]%N.
Proof. repeat split. Qed.

(** The digests of the empty input, of abc and of the two-block message
    of FIPS 180-4. *)
Lemma hash_test_vectors :
  hash [] = "e3b0c44298fc1c149afbf4c8996fb92427ae41e4649b934ca495991b7852b855"
  ∧ hash (String.list_byte_of_string "abc")
    = "ba7816bf8f01cfea414140de5dae2223b00361a396177a9cb410ff61f20015ad"
  ∧ hash (String.list_byte_of_string
            "abcdbcdecdefdefgefghfghighijhijkijkljklmklmnlmnomnopnopq")
    = "248d6a61d20638b8e5c026930c3e6039a33ce45964ff2167f6ecedd419db06c1".
Proof. repeat split; by vm_compute. Qed.

(** ** setFlagsFromFile *)

Section FlagsFromFile.

Context (intSet : string → Z → Z * option error).
Context (Fields : string → list string).
Context (Open : string → error + list string).

#[local] Abbreviation setLine := (setLine intSet Fields).
#[local] Abbreviation setFlagsFromFile := (setFlagsFromFile intSet Fields Open).

(** Setting one flag leaves the others as they are. *)
Lemma Lookup_Set_ne (name other value : string) (fl : Flags) :
  other ≠ name →
  flag.Lookup other (flag.Set_ intSet name value fl).1 = flag.Lookup other fl.
Proof.
  intros N. unfold flag.Set_.
  repeat case_decide; subst; simpl; try done;
    unfold flag.Lookup; simpl; repeat case_decide; subst; done.
Qed.

Lemma Lookup_Set_string (name value old : string) (fl : Flags) :
  flag.Lookup name fl = Some (flag.StringValue old) →
  flag.Lookup name (flag.Set_ intSet name value fl).1
  = Some (flag.StringValue value).
Proof.
  unfold flag.Lookup, flag.Set_.
  repeat case_decide; subst; simpl; try done.
Qed.

(** A line that does not name the flag in two fields leaves it. *)
Lemma Lookup_setLine_other (name line : string) (fl : Flags) :
  (∀ value, Fields line ≠ [name; value]) →
  flag.Lookup name (setLine fl line) = flag.Lookup name fl.
Proof.
  intros N. unfold setLine.
  destruct (Fields line) as [|n [|v [|]]]; try done.
  apply Lookup_Set_ne. intros ->. by apply (N v).
Qed.

Lemma Lookup_setLines_other (name : string) (lines : list string) (fl : Flags) :
  (∀ line value, line ∈ lines → Fields line ≠ [name; value]) →
  flag.Lookup name (foldl setLine fl lines) = flag.Lookup name fl.
Proof.
  revert fl. induction lines as [|line lines IH]; intros fl N; [done|].
  simpl. rewrite IH by (intros ?? I; apply N; by apply list_elem_of_further).
  apply Lookup_setLine_other. intros value. apply N, list_elem_of_here.
Qed.

(** The seven calls of the function given to VisitAll read the file once:
    the first one reads it to its end, the others find nothing left. *)
Lemma setFlagsFromFile_lines (filename : string) (lines : list string)
    (fl : Flags) :
  Open filename = inr lines →
  setFlagsFromFile filename fl = (foldl setLine fl lines, None).
Proof. intros O. unfold setFlagsFromFile. by rewrite O. Qed.

(** X7: the last line that names a string flag in two fields decides its
    value: whatever the flag held before (its default, or what the command
    line gave), it holds the second field of that line afterwards. *)
Theorem setFlagsFromFile_last_line (filename name value old : string)
    (before after : list string) (line : string) (fl : Flags) :
  Open filename = inr (before ++ line :: after) →
  Fields line = [name; value] →
  flag.Lookup name fl = Some (flag.StringValue old) →
  (∀ l v, l ∈ after → Fields l ≠ [name; v]) →
  (setFlagsFromFile filename fl).2 = None
  ∧ flag.Lookup name (setFlagsFromFile filename fl).1
    = Some (flag.StringValue value).
Proof.
  intros O F L N. rewrite (setFlagsFromFile_lines _ _ _ O). split; [done|].
  rewrite foldl_app. simpl. rewrite Lookup_setLines_other by done.
  unfold setLine at 1. rewrite F.
  assert (∃ old', flag.Lookup name (foldl setLine fl before)
                  = Some (flag.StringValue old')) as [old' L'].
  { clear O N. revert fl old L.
    induction before as [|l before IH]; intros fl old L; [by eauto|].
    simpl. unfold setLine at 2.
    destruct (Fields l) as [|n [|v [|]]]; try by eapply IH.
    destruct (decide (name = n)) as [->|Ne].
    - eapply IH. by erewrite Lookup_Set_string.
    - eapply IH. by rewrite Lookup_Set_ne. }
  by erewrite Lookup_Set_string.
Qed.

(** X8: a flag that no line names in two fields keeps its value; lines with
    another number of fields, and lines that name no flag, change
    nothing.  When the file cannot be opened the error is returned and no
    flag is changed. *)
Theorem setFlagsFromFile_frame (filename : string) (fl : Flags) :
  (∀ err, Open filename = inl err → setFlagsFromFile filename fl = (fl, Some err))
  ∧ (∀ lines name,
       Open filename = inr lines →
       (∀ l v, l ∈ lines → Fields l ≠ [name; v]) →
       flag.Lookup name (setFlagsFromFile filename fl).1 = flag.Lookup name fl)
  ∧ (∀ lines,
       Open filename = inr lines →
       (∀ l, l ∈ lines →
          length (Fields l) ≠ 2
          ∨ ∃ n v, Fields l = [n; v] ∧ flag.Lookup n fl = None) →
       setFlagsFromFile filename fl = (fl, None)).
Proof.
  split; [|split].
  - intros err O. unfold setFlagsFromFile. by rewrite O.
  - intros lines name O N. rewrite (setFlagsFromFile_lines _ _ _ O).
    by apply Lookup_setLines_other.
  - intros lines O N. rewrite (setFlagsFromFile_lines _ _ _ O). f_equal.
    clear O. induction lines as [|l lines IH]; [done|].
    simpl. assert (setLine fl l = fl) as ->.
    { unfold setLine. destruct (N l (list_elem_of_here _ _)) as [NL|(n & v & E & U)].
      - destruct (Fields l) as [|? [|? [|]]]; done.
      - rewrite E. unfold flag.Set_, flag.Lookup in *.
        repeat case_decide; done. }
    apply IH. intros ? I. apply N. by apply list_elem_of_further.
Qed.

End FlagsFromFile.

(** ** NewGitlab, Add and Commit: what the theorems above leave open *)

(** What NewGitlab returns: a syncer as it was asked for, or an error. *)
Lemma NewGitlab_cases
    (json_Unmarshal : list byte → History → History * option error)
    (base64_DecodeString : string → list byte * option error)
    (NewClient : option error) (GetFile : gitlab.GetFileReturn)
    (ref : string) (project : Z) :
  (∃ g,
      NewGitlab json_Unmarshal base64_DecodeString NewClient GetFile ref project
      = (Some g, None)
      ∧ actions g = [] ∧ pid g = project ∧ branch g = ref
      ∧ historyFile g = "history.json")
  ∨ (∃ err,
      NewGitlab json_Unmarshal base64_DecodeString NewClient GetFile ref project
      = (None, Some err)).
Proof.
  unfold NewGitlab, parseHistory.
  destruct NewClient as [err|]; [right; eauto|].
  destruct GetFile as [fContent|[resp|] err]; [| |right; eauto].
  - destruct (base64_DecodeString fContent) as [data [err|]]; [right; eauto|].
    destruct (json_Unmarshal data _) as [h [err|]]; simpl; [right; eauto|].
    left. eexists. by split.
  - case_bool_decide; [|right; eauto]. left. eexists. by split.
Qed.

(** X9: NewGitlab returns a syncer or an error, never both and never
    neither.  A syncer it returns has no action queued, the project, the
    branch and the history file it was asked for, and is set to create the
    history file only together with an empty store. *)
Theorem NewGitlab_result
    (json_Unmarshal : list byte → History → History * option error)
    (base64_DecodeString : string → list byte * option error)
    (NewClient : option error) (GetFile : gitlab.GetFileReturn)
    (ref : string) (project : Z) :
  (∃ g,
      NewGitlab json_Unmarshal base64_DecodeString NewClient GetFile ref project
      = (Some g, None)
      ∧ actions g = [] ∧ pid g = project ∧ branch g = ref
      ∧ historyFile g = "history.json"
      ∧ (historyAction g = gitlab.FileCreate ∧ history g = ∅
         ∨ historyAction g = gitlab.FileUpdate))
  ∨ (∃ err,
      NewGitlab json_Unmarshal base64_DecodeString NewClient GetFile ref project
      = (None, Some err)).
Proof.
  unfold NewGitlab, parseHistory.
  destruct NewClient as [err|]; [right; eauto|].
  destruct GetFile as [fContent|[resp|] err]; [| |right; eauto].
  - destruct (base64_DecodeString fContent) as [data [err|]]; [right; eauto|].
    destruct (json_Unmarshal data _) as [h [err|]]; simpl; [right; eauto|].
    left. eexists. split; [done|]. simpl. eauto 10.
  - case_bool_decide; [|right; eauto].
    left. eexists. split; [done|]. simpl. eauto 10.
Qed.

(** Add queues after what is queued, and adds the blob's id to the ids
    of the store. *)
Lemma Add_actions_app (g : Gitlab) (B : File) :
  ∃ new, actions (Add g B) = actions g ++ new.
Proof.
  unfold Add. destruct (history g !! UID B) as [hf|];
    [destruct (moved B hf); [|destruct (modified B hf)]|];
    try (by eexists [_]). exists []. by rewrite app_nil_r.
Qed.

Lemma Add_dom (g : Gitlab) (B : File) :
  dom (history (Add g B)) = {[UID B]} ∪ dom (history g).
Proof.
  unfold Add. destruct (history g !! UID B) as [hf|];
    repeat case_match; simpl; by rewrite dom_insert_L.
Qed.

(** X10: what Add queues: at most one action, after the actions queued
    before; none exactly when the id is in the store with a record that
    carries another uid or the blob's fingerprint; and the action is a
    Create, a Move or an Update of the blob's path with the blob's content,
    never a Delete. *)
Theorem Add_queues (g : Gitlab) (B : File) :
  ∃ new,
    actions (Add g B) = actions g ++ new
    ∧ (new = []
       ↔ ∃ hf, history g !! UID B = Some hf
               ∧ (UID hf ≠ UID B ∨ SHA256 hf = SHA256 B))
    ∧ (new = []
       ∨ ∃ a, new = [a]
              ∧ gitlab.Action a ∈ [Some gitlab.FileCreate; Some gitlab.FileMove;
                                   Some gitlab.FileUpdate]
              ∧ gitlab.FilePath a = Some (Path B)
              ∧ gitlab.Content a
                = Some (String.string_of_list_byte (content B))).
Proof.
  unfold Add. destruct (history g !! UID B) as [hf|] eqn:L.
  - destruct (moved B hf) eqn:M; [|destruct (modified B hf) eqn:U].
    + eexists [_]. split; [done|]. apply moved_true in M as (? & ? & ?).
      split; [|right; eexists; split; [done|]; simpl;
               split; [|done]; apply list_elem_of_further, list_elem_of_here].
      split; [done|]. intros (hf' & [= <-] & [?|?]); congruence.
    + eexists [_]. split; [done|]. apply modified_true in U as (? & ? & ?).
      split; [|right; eexists; split; [done|]; simpl;
               split; [|done]; do 2 apply list_elem_of_further;
               apply list_elem_of_here].
      split; [done|]. intros (hf' & [= <-] & [?|?]); congruence.
    + exists []. split; [by rewrite app_nil_r|]. split; [|by left].
      split; [|done]. intros _. exists hf. split; [done|].
      destruct (decide (UID hf = UID B)) as [EU|]; [|by left]. right.
      destruct (decide (SHA256 hf = SHA256 B)) as [|NS]; [done|].
      destruct (decide (Path B = Path hf)).
      * assert (modified B hf = true) by (apply modified_true; naive_solver).
        congruence.
      * assert (moved B hf = true) by (apply moved_true; naive_solver).
        congruence.
  - eexists [_]. split; [done|].
    split; [|right; eexists; split; [done|]; simpl;
             split; [|done]; apply list_elem_of_here].
    split; [done|]. by intros (hf & ? & _).
Qed.

(** X11: what Add does to the store: the blob's id is in it afterwards, with a
    marked record, and every other entry is as before.  Add removes
    nothing. *)
Theorem Add_store (g : Gitlab) (B : File) :
  dom (history (Add g B)) = {[UID B]} ∪ dom (history g)
  ∧ (∃ f, history (Add g B) !! UID B = Some f ∧ processed f = true)
  ∧ ∀ k, k ≠ UID B → history (Add g B) !! k = history g !! k.
Proof.
  split; [apply Add_dom|].
  split; [apply Add_lookup_eq|intros k; apply Add_lookup_ne].
Qed.

(** ** A run: the store it leaves, a second Commit *)


Lemma Add_lookup_record (g : Gitlab) (B : File) :
  keyed_by_uid (history g) →
  ∃ f, history (Add g B) !! UID B = Some f
       ∧ UID f = UID B ∧ SHA256 f = SHA256 B
       ∧ (Path f = Path B
          ∨ ∃ hf, history g !! UID B = Some hf
                  ∧ SHA256 hf = SHA256 B ∧ Path f = Path hf).
Proof.
  intros K. unfold Add. destruct (history g !! UID B) as [hf|] eqn:L.
  - destruct (moved B hf) eqn:M; [|destruct (modified B hf) eqn:U]; simpl.
    + rewrite lookup_insert_eq. eexists. split; [done|]. simpl. auto.
    + rewrite lookup_insert_eq. eexists. split; [done|]. simpl. auto.
    + rewrite lookup_insert_eq. eexists. split; [done|]. simpl.
      pose proof (K _ _ L) as EU. simpl in EU.
      assert (SHA256 hf = SHA256 B) as ES.
      { destruct (decide (SHA256 hf = SHA256 B)) as [|NS]; [done|].
        destruct (decide (Path B = Path hf)).
        - assert (modified B hf = true) by (apply modified_true; naive_solver).
          congruence.
        - assert (moved B hf = true) by (apply moved_true; naive_solver).
          congruence. }
      split; [done|]. split; [done|]. right. by exists hf.
  - simpl. rewrite lookup_insert_eq. eexists. split; [done|]. simpl. auto.
Qed.

Lemma AddAll_lookup_record (blobs : list File) (g : Gitlab) :
  keyed_by_uid (history g) →
  NoDup (UID <$> blobs) →
  ∀ B, B ∈ blobs →
    ∃ f, history (AddAll g blobs) !! UID B = Some f
         ∧ processed f = true
         ∧ UID f = UID B ∧ SHA256 f = SHA256 B
         ∧ (Path f = Path B
            ∨ ∃ hf, history g !! UID B = Some hf
                    ∧ SHA256 hf = SHA256 B ∧ Path f = Path hf).
Proof.
  revert g. induction blobs as [|B0 blobs IH]; intros g K ND B HB.
  - by apply elem_of_nil in HB.
  - rewrite fmap_cons in ND. apply NoDup_cons in ND as [NI ND].
    apply elem_of_cons in HB as [->|HB]; simpl.
    + destruct (Add_lookup_record g B0 K) as (f & L & ?).
      destruct (Add_lookup_eq g B0) as (f' & L' & P').
      exists f. split.
      * change (history (AddAll (Add g B0) blobs) !! UID B0 = Some f).
        by rewrite AddAll_lookup_ne.
      * split; [congruence|done].
    + destruct (IH (Add g B0) (Add_keyed_by_uid g B0 K) ND B HB)
        as (f & L & P & EU & ES & HP).
      exists f. split; [done|]. split; [done|]. split; [done|].
      split; [done|]. destruct HP as [?|(hf & Lh & ? & ?)]; [by left|].
      right. exists hf. split; [|done].
      rewrite <- Lh. symmetry. apply Add_lookup_ne.
      intros E. apply NI. rewrite <- E. apply list_elem_of_fmap. by exists B.
Qed.

Section Run.

Variable json_text : json.value → list byte.


(** X13: Commit does not empty the queue.  After a Commit that was skipped
    a second Commit is skipped too; after a Commit that sent a batch, a
    second Commit on the same syncer sends that batch again, the first
    history action included, and one more history action after it (none
    when the store is empty). *)
Theorem Commit_again (g : Gitlab) (order order' : list string)
    (CreateCommit CreateCommit' : gitlab.CreateCommitOptions → option error) :
  keyed_by_uid (history g) →
  range_order (history g) order →
  let r := Commit json_text order CreateCommit g in
  (batch r.2 = [] → Commit json_text order' CreateCommit' r.1 = (r.1, CommitSkipped))
  ∧ (batch r.2 ≠ [] →
     batch (Commit json_text order' CreateCommit' r.1).2
     = batch r.2
       ++ (if decide (history r.1 = ∅) then []
           else [historyFileAction json_text r.1])).
Proof.
  intros K R r.
  assert (deleteOrphans order' r.1 = r.1) as Hsw.
  { apply deleteOrphans_all_marked. unfold r. rewrite Commit_history.
    destruct (deleteOrphans_range_order order g R K) as [-> _].
    intros k f Lf. by apply map_lookup_filter_Some in Lf as [_ ?]. }
  pose proof (Commit_batch json_text order CreateCommit g) as Hb.
  fold r in Hb. split; intros HB.
  - unfold Commit at 1. rewrite Hsw. rewrite <- Hb, HB. simpl. done.
  - destruct (Commit_sends json_text order' CreateCommit' r.1) as [_ ->].
    rewrite Hsw, <- Hb. f_equal. unfold historyTail.
    rewrite <- Hb. destruct (decide (history r.1 = ∅)) as [E|NE].
    + rewrite decide_False; [done|]. by intros [_ ?].
    + by rewrite decide_True.
Qed.

End Run.

(** ** main *)

Lemma Add_pid_branch (g : Gitlab) (B : File) :
  pid (Add g B) = pid g ∧ branch (Add g B) = branch g.
Proof. unfold Add. by repeat case_match. Qed.

Lemma AddAll_pid_branch (blobs : list File) (g : Gitlab) :
  pid (AddAll g blobs) = pid g ∧ branch (AddAll g blobs) = branch g.
Proof.
  revert g. induction blobs as [|B blobs IH]; intros g; [done|]. simpl.
  destruct (IH (Add g B)) as [-> ->]. apply Add_pid_branch.
Qed.



Lemma rooted_nonempty (p : string) : rooted p → p ≠ "".
Proof. by destruct p. Qed.

Lemma Add_rooted (g : Gitlab) (B : File) :
  rooted_paths (history g) →
  rooted (Path B) →
  rooted_paths (history (Add g B))
  ∧ ∃ new, actions (Add g B) = actions g ++ new ∧ Forall content_action new.
Proof.
  intros RP RB. unfold Add. destruct (history g !! UID B) as [hf|] eqn:L.
  - pose proof (RP _ _ L) as Rh. simpl in Rh.
    destruct (moved B hf) eqn:M; [|destruct (modified B hf) eqn:U]; simpl.
    + split; [by apply map_Forall_insert_2|]. eexists [_]. split; [done|].
      apply Forall_singleton. split; [|split; [by eexists|done]].
      right; right. split; [done|]. exists (Path hf). split; [|done].
      unfold previousPath. rewrite bool_decide_eq_true_2; [done|].
      by apply rooted_nonempty.
    + split; [by apply map_Forall_insert_2|]. eexists [_]. split; [done|].
      apply Forall_singleton. split; [|split; [by eexists|done]].
      right; left. done.
    + split; [by apply map_Forall_insert_2|]. exists [].
      split; [by rewrite app_nil_r|done].
  - simpl. split; [by apply map_Forall_insert_2|]. eexists [_]. split; [done|].
    apply Forall_singleton. split; [|split; [by eexists|done]]. by left.
Qed.

Lemma AddAll_rooted (blobs : list File) (g : Gitlab) :
  rooted_paths (history g) →
  Forall (λ B, rooted (Path B)) blobs →
  rooted_paths (history (AddAll g blobs))
  ∧ ∃ new, actions (AddAll g blobs) = actions g ++ new
           ∧ Forall content_action new.
Proof.
  revert g. induction blobs as [|B blobs IH]; intros g RP RB.
  - split; [done|]. exists []. split; [by rewrite app_nil_r|done].
  - apply Forall_cons in RB as [RB RBs].
    destruct (Add_rooted g B RP RB) as (RP1 & new1 & E1 & F1).
    destruct (IH (Add g B) RP1 RBs) as (RP2 & new2 & E2 & F2).
    split; [done|]. exists (new1 ++ new2). split.
    + change (AddAll g (B :: blobs)) with (AddAll (Add g B) blobs).
      by rewrite E2, E1, <- app_assoc.
    + by apply Forall_app.
Qed.

Lemma deleteOrphans_rooted (order : list string) (g : Gitlab) :
  rooted_paths (history g) →
  rooted_paths (history (deleteOrphans order g))
  ∧ ∃ dels, actions (deleteOrphans order g) = actions g ++ dels
            ∧ Forall delete_action dels.
Proof.
  revert g. induction order as [|k order IH]; intros g RP.
  - split; [done|]. exists []. split; [by rewrite app_nil_r|done].
  - change (deleteOrphans (k :: order) g)
      with (deleteOrphans order (deleteOrphan g k)).
    assert (rooted_paths (history (deleteOrphan g k))
            ∧ ∃ d1, actions (deleteOrphan g k) = actions g ++ d1
                    ∧ Forall delete_action d1) as (RP1 & d1 & E1 & F1).
    { unfold deleteOrphan. destruct (history g !! k) as [f|] eqn:L.
      - destruct (processed f).
        + split; [done|]. exists []. split; [by rewrite app_nil_r|done].
        + simpl. split; [by apply map_Forall_delete|]. eexists [_].
          split; [done|]. apply Forall_singleton.
          split; [done|]. split; [|done]. eexists. split; [done|].
          apply (RP _ _ L).
      - split; [done|]. exists []. split; [by rewrite app_nil_r|done]. }
    destruct (IH _ RP1) as (RP2 & d2 & E2 & F2). split; [done|].
    exists (d1 ++ d2). split; [by rewrite E2, E1, <- app_assoc|].
    by apply Forall_app.
Qed.

Section MainProperties.

Context {Dashboard : Type} (w : World Dashboard).

(** The loop of main is AddAll over the dashboards that were fetched and
    converted; the others leave a line in the log and nothing else. *)
Lemma foldl_syncDashboard (ds : list gapi.FolderDashboardSearchResponse)
    (g : Gitlab) (log : list LogEntry) :
  foldl (syncDashboard w) (g, log) ds
  = (AddAll g (omap (fetched w) ds), log ++ omap (logLine w) ds).
Proof.
  revert g log. induction ds as [|d ds IH]; intros g log.
  - by rewrite app_nil_r.
  - simpl. unfold syncDashboard at 2, fetched at 1, logLine at 1.
    destruct (w_DashboardByUID w (gapi.UID d)) as [e|b]; simpl.
    + rewrite IH. by rewrite <- app_assoc.
    + destruct (w_MarshalIndent w b) as [e|data]; simpl.
      * rewrite IH. by rewrite <- app_assoc.
      * by rewrite IH.
Qed.

Lemma fetched_rooted (ds : list gapi.FolderDashboardSearchResponse) :
  Forall (λ B, rooted (Path B)) (omap (fetched w) ds).
Proof.
  apply Forall_forall. intros B HB.
  apply list_elem_of_omap in HB as (d & _ & HB). unfold fetched in HB.
  destruct (w_DashboardByUID w (gapi.UID d)) as [|b]; [done|].
  destruct (w_MarshalIndent w b) as [|data]; [done|]. injection HB as <-. reflexivity.
Qed.

(** Once the four steps before the loop succeeded, main is the loop and
    the Commit. *)
Lemma main_started (parsed fl : Flags) (git : Gitlab)
    (ds : list gapi.FolderDashboardSearchResponse) :
  started w parsed fl git ds →
  main w parsed
  = match Commit (w_json_text w)
            (w_range w (history (AddAll git (omap (fetched w) ds))))
            (w_CreateCommit w (gitPID fl))
            (AddAll git (omap (fetched w) ds)) with
    | (_, CommitSkipped) =>
        {| exit := Returned; sent := None; logged := omap (logLine w) ds |}
    | (_, CommitSent opt None) =>
        {| exit := Returned; sent := Some opt; logged := omap (logLine w) ds |}
    | (_, CommitSent opt (Some err)) =>
        {| exit := Fatal err; sent := Some opt; logged := omap (logLine w) ds |}
    end.
Proof.
  intros (Hf & Hg & Hn & Hd). unfold main. rewrite Hf, Hg, Hn, Hd.
  rewrite foldl_syncDashboard. cbn [fst snd app].
  destruct (AddAll_pid_branch (omap (fetched w) ds) git) as [-> _].
  destruct (NewGitlab_cases (w_json_Unmarshal w) (w_base64_DecodeString w)
              (w_gitlab_NewClient w (gitToken fl) (gitAPI fl))
              (w_GetFile w (gitPID fl) "history.json" (gitBranch fl))
              (gitBranch fl) (gitPID fl))
    as [(g0 & E & _ & P & _)|(err & E)]; rewrite E in Hn; [|done].
  injection Hn as <-. by rewrite P.
Qed.

Lemma main_sent_logged (parsed fl : Flags) (git : Gitlab)
    (ds : list gapi.FolderDashboardSearchResponse) :
  started w parsed fl git ds →
  let g := AddAll git (omap (fetched w) ds) in
  let r := Commit (w_json_text w) (w_range w (history g))
             (w_CreateCommit w (gitPID fl)) g in
  sent (main w parsed)
  = match r.2 with CommitSent opt _ => Some opt | CommitSkipped => None end
  ∧ logged (main w parsed) = omap (logLine w) ds.
Proof.
  intros St g r. rewrite (main_started _ _ _ _ St). fold g. fold r.
  by destruct r as [g' [|opt [err|]]].
Qed.

(** X14: main is the run of the syncer.  When the four steps before the
    loop succeed, main commits what Commit makes of the syncer NewGitlab
    returned after the fetched dashboards were added to it in the order of
    the listing; it ends in log.Fatal exactly when the server refuses the
    commit, and it logs one line for each dashboard it skipped. *)
Theorem main_runs (parsed fl : Flags) (git : Gitlab)
    (ds : list gapi.FolderDashboardSearchResponse) :
  started w parsed fl git ds →
  let g := AddAll git (omap (fetched w) ds) in
  let r := Commit (w_json_text w) (w_range w (history g))
             (w_CreateCommit w (gitPID fl)) g in
  sent (main w parsed)
  = match r.2 with CommitSent opt _ => Some opt | CommitSkipped => None end
  ∧ exit (main w parsed)
    = match r.2 with CommitSent _ (Some err) => Fatal err | _ => Returned end
  ∧ logged (main w parsed) = omap (logLine w) ds.
Proof.
  intros St g r. rewrite (main_started _ _ _ _ St). fold g. fold r.
  by destruct r as [g' [|opt [err|]]].
Qed.


(** X16: a dashboard that could not be fetched or converted.  When the
    store NewGitlab loaded is keyed by uid and unmarked and holds a record
    for a listed dashboard, and no dashboard with this uid was fetched and
    converted, main logs the dashboard and sends a commit that deletes the
    file of the record. *)
Theorem main_failed_fetch_deletes (parsed fl : Flags) (git : Gitlab)
    (ds : list gapi.FolderDashboardSearchResponse)
    (d : gapi.FolderDashboardSearchResponse) (hf : File) :
  started w parsed fl git ds →
  keyed_by_uid (history git) →
  unprocessed (history git) →
  range_order (history (AddAll git (omap (fetched w) ds)))
    (w_range w (history (AddAll git (omap (fetched w) ds)))) →
  d ∈ ds →
  gapi.UID d ∉ UID <$> omap (fetched w) ds →
  history git !! gapi.UID d = Some hf →
  (ErrorGetting d ∈ logged (main w parsed)
   ∨ ErrorConverting d ∈ logged (main w parsed))
  ∧ ∃ opt, sent (main w parsed) = Some opt
           ∧ deleteAction hf ∈ gitlab.Actions opt.
Proof.
  intros St K U R Hd NI L.
  destruct (main_sent_logged parsed fl git ds St) as (Hs & Hl).
  split.
  - rewrite Hl.
    assert (fetched w d = None) as HF.
    { destruct (fetched w d) as [B|] eqn:HF; [|done]. exfalso. apply NI.
      apply list_elem_of_fmap. exists B. split.
      - unfold fetched in HF.
        destruct (w_DashboardByUID w (gapi.UID d)) as [|b]; [done|].
        destruct (w_MarshalIndent w b) as [|data]; [done|].
        by injection HF as <-.
      - apply list_elem_of_omap. by exists d. }
    unfold fetched in HF.
    destruct (w_DashboardByUID w (gapi.UID d)) as [e|b] eqn:HB.
    + left. apply list_elem_of_omap. exists d. split; [done|].
      unfold logLine. by rewrite HB.
    + destruct (w_MarshalIndent w b) as [e|data] eqn:HM; [|done].
      right. apply list_elem_of_omap. exists d. split; [done|].
      unfold logLine. by rewrite HB, HM.
  - set (g := AddAll git (omap (fetched w) ds)) in *.
    set (order := w_range w (history g)) in *.
    assert (history g !! gapi.UID d = Some hf) as Lg
      by (unfold g; by rewrite AddAll_lookup_ne).
    pose proof (AddAll_keyed_by_uid (omap (fetched w) ds) git K) as Kg.
    fold g in Kg.
    assert (deleteAction hf ∈ actions (deleteOrphans order g)) as Hin.
    { destruct (deleteOrphans_range_order order g R Kg) as [_ ->].
      apply elem_of_app. right. apply list_elem_of_fmap. exists hf.
      split; [done|]. apply list_elem_of_omap. exists (gapi.UID d). split.
      - apply (range_order_elem_of _ _ _ R). by eexists.
      - unfold orphan. rewrite Lg. by rewrite (U _ _ L). }
    destruct (Commit_sends (w_json_text w) order
                (w_CreateCommit w (gitPID fl)) g) as [Hskip Hbatch].
    destruct (Commit _ _ _ _).2 as [|opt e] eqn:HC.
    + apply proj1 in Hskip. rewrite Hskip in Hin; [|done].
      by apply elem_of_nil in Hin.
    + exists opt. split; [done|]. simpl in Hbatch. rewrite Hbatch.
      apply elem_of_app. by left.
Qed.

(** X17: the shape of the commit main sends.  When every path of the
    loaded store begins with a slash, the actions of the commit are: first
    Create, Move and Update actions with content, on paths that begin with a
    slash, every Move with its previous path; then Delete actions on such
    paths; then, unless the store is left empty, one action on
    history.json.  The store the run leaves has such paths again. *)
Theorem main_batch_shape (parsed fl : Flags) (git : Gitlab)
    (ds : list gapi.FolderDashboardSearchResponse)
    (opt : gitlab.CreateCommitOptions) :
  started w parsed fl git ds →
  rooted_paths (history git) →
  sent (main w parsed) = Some opt →
  let g := AddAll git (omap (fetched w) ds) in
  let swept := deleteOrphans (w_range w (history g)) g in
  rooted_paths (history swept)
  ∧ historyFile swept = "history.json"
  ∧ ∃ adds dels,
      gitlab.Actions opt
      = adds ++ dels
        ++ (if decide (history swept = ∅) then []
            else [historyFileAction (w_json_text w) swept])
      ∧ Forall content_action adds
      ∧ Forall delete_action dels
      ∧ adds ++ dels ≠ [].
Proof.
  intros St RP Hs g swept.
  destruct (AddAll_rooted (omap (fetched w) ds) git RP (fetched_rooted ds))
    as (RPg & adds & Ea & Fa). fold g in RPg, Ea.
  destruct (deleteOrphans_rooted (w_range w (history g)) g RPg)
    as (RPs & dels & Ed & Fd). fold swept in RPs, Ed.
  assert (actions git = []) as Hnil.
  { destruct St as (_ & _ & Hn & _).
    destruct (NewGitlab_cases (w_json_Unmarshal w) (w_base64_DecodeString w)
                (w_gitlab_NewClient w (gitToken fl) (gitAPI fl))
                (w_GetFile w (gitPID fl) "history.json" (gitBranch fl))
                (gitBranch fl) (gitPID fl))
      as [(g0 & E & A & _)|(err & E)]; rewrite E in Hn; [|done].
    by injection Hn as <-. }
  assert (historyFile git = "history.json") as HF.
  { destruct St as (_ & _ & Hn & _).
    destruct (NewGitlab_cases (w_json_Unmarshal w) (w_base64_DecodeString w)
                (w_gitlab_NewClient w (gitToken fl) (gitAPI fl))
                (w_GetFile w (gitPID fl) "history.json" (gitBranch fl))
                (gitBranch fl) (gitPID fl))
      as [(g0 & E & _ & _ & _ & F)|(err & E)]; rewrite E in Hn; [|done].
    by injection Hn as <-. }
  rewrite Ea, Hnil in Ed. simpl in Ed.
  split; [done|]. split.
  { unfold swept.
    destruct (deleteOrphans_fields (w_range w (history g)) g) as [_ ->].
    unfold g. by destruct (AddAll_fields (omap (fetched w) ds) git) as [_ ->]. }
  exists adds, dels.
  destruct (main_sent_logged parsed fl git ds St) as (Hs' & _). rewrite Hs in Hs'.
  fold g in Hs'.
  destruct (Commit_sends (w_json_text w) (w_range w (history g))
              (w_CreateCommit w (gitPID fl)) g) as [Hskip Hbatch].
  fold swept in Hskip, Hbatch.
  destruct (Commit _ _ _ _).2 as [|opt' e] eqn:HC; [done|].
  injection Hs' as <-. simpl in Hbatch.
  assert (adds ++ dels ≠ []) as NE.
  { rewrite <- Ed. intros E. by apply Hskip in E. }
  split; [|done]. rewrite Hbatch, Ed, <- app_assoc. do 2 f_equal.
  unfold historyTail. rewrite Ed.
  destruct (decide (history swept = ∅)) as [E|NEh].
  - rewrite decide_False; [done|]. by intros [_ ?].
  - by rewrite decide_True.
Qed.

End MainProperties.

(** ** The sweep on any store, the order of the blobs *)

(** X18: what the sweep does on any store, keyed by uid or not, in any
    order of visit.  It adds and changes no record: the store it leaves
    is a part of the store it found.  It queues nothing but Delete actions,
    after the actions queued before, at most one for each key visited, each
    for a record of the store it found that was not marked. *)
Theorem deleteOrphans_only_deletes (order : list string) (g : Gitlab) :
  history (deleteOrphans order g) ⊆ history g
  ∧ ∃ dels,
      actions (deleteOrphans order g) = actions g ++ (deleteAction <$> dels)
      ∧ (length dels ≤ length order)%nat
      ∧ Forall (λ f, processed f = false
                     ∧ ∃ k, k ∈ order ∧ history g !! k = Some f) dels.
Proof.
  revert g. induction order as [|k order IH]; intros g.
  - split; [done|]. exists []. split; [by rewrite app_nil_r|]. by split.
  - change (deleteOrphans (k :: order) g)
      with (deleteOrphans order (deleteOrphan g k)).
    destruct (IH (deleteOrphan g k)) as (Sub & dels & E & Len & F).
    assert (history (deleteOrphan g k) ⊆ history g
            ∧ ∃ d1, actions (deleteOrphan g k)
                    = actions g ++ (deleteAction <$> d1)
                    ∧ (length d1 ≤ 1)%nat
                    ∧ Forall (λ f, processed f = false
                                   ∧ history g !! k = Some f) d1)
      as (Sub1 & d1 & E1 & Len1 & F1).
    { unfold deleteOrphan. destruct (history g !! k) as [f|] eqn:L.
      - destruct (processed f) eqn:P.
        + split; [done|]. exists []. split; [by rewrite app_nil_r|].
          split; [simpl; lia|done].
        + simpl. split; [apply delete_subseteq|]. exists [f].
          split; [done|]. split; [done|]. by apply Forall_singleton.
      - split; [done|]. exists []. split; [by rewrite app_nil_r|].
        split; [simpl; lia|done]. }
    split; [by transitivity (history (deleteOrphan g k))|].
    exists (d1 ++ dels). split; [|split].
    + by rewrite E, E1, fmap_app, <- app_assoc.
    + rewrite length_app. simpl. lia.
    + apply Forall_app. split.
      * eapply Forall_impl; [exact F1|]. intros f [? ?]. split; [done|].
        exists k. split; [apply list_elem_of_here|done].
      * eapply Forall_impl; [exact F|]. intros f [? (k' & ? & L')].
        split; [done|]. exists k'. split; [by apply list_elem_of_further|].
        by eapply lookup_weaken.
Qed.

Lemma Add_actions_ext (g1 g2 : Gitlab) (B : File) :
  history g1 = history g2 →
  history (Add g1 B) = history (Add g2 B)
  ∧ ∃ new, actions (Add g1 B) = actions g1 ++ new
           ∧ actions (Add g2 B) = actions g2 ++ new.
Proof.
  intros E. unfold Add. rewrite E.
  destruct (history g2 !! UID B) as [hf|];
    [destruct (moved B hf); [|destruct (modified B hf)]|]; simpl; rewrite ?E;
    (split; [done|]);
    try (by eexists [_]); exists []; by rewrite !app_nil_r.
Qed.

Lemma AddAll_actions_ext (blobs : list File) (g1 g2 : Gitlab) :
  history g1 = history g2 →
  history (AddAll g1 blobs) = history (AddAll g2 blobs)
  ∧ ∃ new, actions (AddAll g1 blobs) = actions g1 ++ new
           ∧ actions (AddAll g2 blobs) = actions g2 ++ new.
Proof.
  revert g1 g2. induction blobs as [|B blobs IH]; intros g1 g2 E.
  - split; [done|]. exists []. by rewrite !app_nil_r.
  - destruct (Add_actions_ext g1 g2 B E) as (E1 & n1 & A1 & A2).
    destruct (IH _ _ E1) as (E2 & n2 & A3 & A4). split; [done|].
    exists (n1 ++ n2).
    change (AddAll g1 (B :: blobs)) with (AddAll (Add g1 B) blobs).
    change (AddAll g2 (B :: blobs)) with (AddAll (Add g2 B) blobs).
    by rewrite A3, A4, A1, A2, <- !app_assoc.
Qed.

Lemma Add_Add_swap (g : Gitlab) (B1 B2 : File) :
  UID B1 ≠ UID B2 →
  history (Add (Add g B1) B2) = history (Add (Add g B2) B1)
  ∧ ∃ n1 n2, actions (Add (Add g B1) B2) = actions g ++ n1 ++ n2
             ∧ actions (Add (Add g B2) B1) = actions g ++ n2 ++ n1.
Proof.
  intros NE.
  assert (∀ g' B B', UID B ≠ UID B' →
            ∃ (f : File) (n : list gitlab.CommitActionOptions),
              (∀ g'', history g'' !! UID B = history g' !! UID B →
                 history (Add g'' B) = <[UID B := f]> (history g'')
                 ∧ actions (Add g'' B) = actions g'' ++ n)) as Hstep.
  { intros g' B B' _. unfold Add.
    destruct (history g' !! UID B) as [hf|] eqn:L.
    - destruct (moved B hf) eqn:M; [|destruct (modified B hf) eqn:U].
      + eexists _, [_]. intros g'' ->. by rewrite M.
      + eexists _, [_]. intros g'' ->. by rewrite M, U.
      + exists (set_processed hf), []. intros g'' ->. rewrite M, U.
        by rewrite app_nil_r.
    - eexists _, [_]. by intros g'' ->. }
  destruct (Hstep g B1 B2 NE) as (f1 & n1 & H1).
  destruct (Hstep g B2 B1 (not_eq_sym NE)) as (f2 & n2 & H2).
  destruct (H1 g eq_refl) as [Ha Aa].
  destruct (H2 g eq_refl) as [Hb Ab].
  destruct (H2 (Add g B1)) as [Hc Ac];
    [by apply Add_lookup_ne, not_eq_sym|].
  destruct (H1 (Add g B2)) as [Hd Ad]; [by apply Add_lookup_ne|].
  split.
  - rewrite Hc, Hd, Ha, Hb. by apply insert_insert_ne.
  - exists n1, n2. by rewrite Ac, Ad, Aa, Ab, <- !app_assoc.
Qed.

(** X19: the order of the listing.  When no two blobs share an id, adding
    them in another order leaves the same store and queues the same
    actions in another order. *)
Theorem AddAll_order (blobs blobs' : list File) (g : Gitlab) :
  NoDup (UID <$> blobs) →
  blobs ≡ₚ blobs' →
  history (AddAll g blobs') = history (AddAll g blobs)
  ∧ ∃ new new',
      actions (AddAll g blobs) = actions g ++ new
      ∧ actions (AddAll g blobs') = actions g ++ new'
      ∧ new ≡ₚ new'.
Proof.
  intros ND HP. revert g ND.
  induction HP as [|B l l' HP IH|B1 B2 l|l l' l'' HP1 IH1 HP2 IH2];
    intros g ND.
  - split; [done|]. exists [], []. by rewrite app_nil_r.
  - rewrite fmap_cons in ND. apply NoDup_cons in ND as [_ ND].
    destruct (IH (Add g B) ND) as (EH & new & new' & A & A' & P).
    destruct (Add_actions_app g B) as (n & An).
    split; [done|]. exists (n ++ new), (n ++ new').
    change (AddAll g (B :: l)) with (AddAll (Add g B) l).
    change (AddAll g (B :: l')) with (AddAll (Add g B) l').
    rewrite A, A', An, <- !app_assoc. split; [done|]. split; [done|].
    by apply Permutation_app_head.
  - rewrite !fmap_cons in ND. apply NoDup_cons in ND as [NI _].
    assert (UID B2 ≠ UID B1) as NE.
    { intros E. apply NI. rewrite E. apply list_elem_of_here. }
    destruct (Add_Add_swap g B2 B1 NE) as (EH & n2 & n1 & A21 & A12).
    destruct (AddAll_actions_ext l _ _ EH) as (EH' & new & A & A').
    change (AddAll g (B2 :: B1 :: l)) with (AddAll (Add (Add g B2) B1) l).
    change (AddAll g (B1 :: B2 :: l)) with (AddAll (Add (Add g B1) B2) l).
    split; [done|]. exists (n2 ++ n1 ++ new), (n1 ++ n2 ++ new).
    rewrite A, A', A21, A12, <- !app_assoc. split; [done|]. split; [done|].
    rewrite !app_assoc. apply Permutation_app_tail, Permutation_app_comm.
  - destruct (IH1 g ND) as (EH1 & n1 & n1' & A1 & A1' & P1).
    assert (NoDup (UID <$> l')) as ND' by (by rewrite <- HP1).
    destruct (IH2 g ND') as (EH2 & n2 & n2' & A2 & A2' & P2).
    split; [by rewrite EH2|]. exists n1, n2'.
    split; [done|]. split; [done|].
    rewrite A1' in A2. apply app_inv_head in A2 as <-. by rewrite P1.
Qed.

(** ** Each blob against the loaded store, a second run of main *)

(** What Add queues depends on the record under the blob's id alone. *)
Lemma Add_local (g1 g2 : Gitlab) (B : File) :
  history g1 !! UID B = history g2 !! UID B →
  queued g1 B = queued g2 B.
Proof.
  intros E. unfold queued, Add. rewrite E.
  destruct (history g2 !! UID B) as [hf|];
    [destruct (moved B hf); [|destruct (modified B hf)]|]; simpl;
    by rewrite ?drop_app_length, ?drop_all.
Qed.

Lemma Add_queued (g : Gitlab) (B : File) :
  actions (Add g B) = actions g ++ queued g B.
Proof.
  unfold queued. destruct (Add_actions_app g B) as [new ->].
  by rewrite drop_app_length.
Qed.

(** X20: each blob is judged against the loaded store.  When no two
    blobs of a run share an id, the actions the run queues are, blob by
    blob in the order of the run, the actions Add queues for that blob
    alone on the store the run started with. *)
Theorem AddAll_queues_each (blobs : list File) (g : Gitlab) :
  NoDup (UID <$> blobs) →
  actions (AddAll g blobs) = actions g ++ concat (queued g <$> blobs).
Proof.
  revert g. induction blobs as [|B blobs IH]; intros g ND.
  - by rewrite app_nil_r.
  - rewrite fmap_cons in ND. apply NoDup_cons in ND as [NI ND].
    change (AddAll g (B :: blobs)) with (AddAll (Add g B) blobs).
    rewrite (IH _ ND), Add_queued, <- app_assoc. simpl. do 3 f_equal.
    apply list_eq_Forall2, Forall2_fmap, Forall_Forall2_diag, Forall_forall.
    intros B' I. apply Add_local, Add_lookup_ne.
    intros E. apply NI. rewrite <- E. by apply list_elem_of_fmap_2.
Qed.

(** A run on the store an earlier run of the same blobs left has nothing
    to commit. *)
Lemma rerun_skipped (json_text json_text' : json.value → list byte)
    (g g' : Gitlab) (blobs : list File)
    (order order' : list string)
    (CreateCommit CreateCommit' : gitlab.CreateCommitOptions → option error) :
  keyed_by_uid (history g) →
  unprocessed (history g) →
  NoDup (UID <$> blobs) →
  range_order (history (AddAll g blobs)) order →
  history g'
  = reload (history (Commit json_text order CreateCommit (AddAll g blobs)).1) →
  actions g' = [] →
  Commit json_text' order' CreateCommit' (AddAll g' blobs)
  = (AddAll g' blobs, CommitSkipped).
Proof.
  intros K U ND R Hg' A.
  pose proof (AddAll_keyed_by_uid blobs g K) as K1.
  pose proof (AddAll_marked_are blobs [] g (unprocessed_marked_are _ U)) as M1.
  simpl in M1. rewrite Commit_history in Hg'.
  destruct (deleteOrphans_range_order order _ R K1) as [Eh _].
  rewrite Eh in Hg'. clear Eh.
  assert (∀ k f, history g' !! k = Some f →
            k ∈ UID <$> blobs ∧ processed f = false) as D'.
  { intros k f. rewrite Hg'. unfold reload. rewrite lookup_fmap.
    destruct (filter _ _ !! k) as [f0|] eqn:L; [|done].
    intros [= <-]. split; [|done].
    apply map_lookup_filter_Some in L as [L P]. by apply (M1 _ _ L). }
  assert (actions (AddAll g' blobs) = []) as A'.
  { rewrite AddAll_same_fingerprints; [done|]. intros B I.
    destruct (AddAll_lookup_record blobs g K ND B I) as (f & L & P & _ & ES & _).
    exists (persisted f). split; [|done].
    rewrite Hg'. unfold reload. rewrite lookup_fmap.
    by erewrite map_lookup_filter_Some_2. }
  assert (map_Forall (λ _ f, processed f = true) (history (AddAll g' blobs)))
    as M'.
  { intros k f L.
    assert (marked_are (UID <$> blobs) (history (AddAll g' blobs))) as M2.
    { apply (AddAll_marked_are blobs [] g'), unprocessed_marked_are.
      intros k0 f0 L0. by apply D' in L0 as [_ ?]. }
    apply (M2 _ _ L).
    destruct (decide (k ∈ UID <$> blobs)) as [|N]; [done|].
    rewrite AddAll_lookup_ne in L by done. by apply D' in L as [? _]. }
  unfold Commit. rewrite deleteOrphans_all_marked by done.
  rewrite bool_decide_eq_true_2; [done|]. by rewrite A'.
Qed.

Section MainTwice.

Context {Dashboard : Type} (w w' : World Dashboard).

(** X21: main run again.  A run of main starts on a loaded store that is
    keyed by uid and unmarked, fetches dashboards of pairwise distinct uids
    and ends.  When main is run again, starts, loads the store the first
    run left, gets the same listing and the same answer for each dashboard
    of it, it sends no commit and returns. *)
Theorem main_again (parsed fl parsed' fl' : Flags) (git git' : Gitlab)
    (ds : list gapi.FolderDashboardSearchResponse) :
  started w parsed fl git ds →
  keyed_by_uid (history git) →
  unprocessed (history git) →
  NoDup (UID <$> omap (fetched w) ds) →
  range_order (history (AddAll git (omap (fetched w) ds)))
    (w_range w (history (AddAll git (omap (fetched w) ds)))) →
  started w' parsed' fl' git' ds →
  (∀ d, d ∈ ds → fetched w' d = fetched w d) →
  history git'
  = reload (history (Commit (w_json_text w)
                       (w_range w (history (AddAll git (omap (fetched w) ds))))
                       (w_CreateCommit w (gitPID fl))
                       (AddAll git (omap (fetched w) ds))).1) →
  sent (main w' parsed') = None ∧ exit (main w' parsed') = Returned.
Proof.
  intros St K U ND R St' Same Hg'.
  assert (omap (fetched w') ds = omap (fetched w) ds) as Eb.
  { clear -Same. induction ds as [|d ds' IH]; [done|]. csimpl.
    rewrite (Same d) by apply list_elem_of_here.
    rewrite IH; [done|]. intros d' I. apply Same. by apply list_elem_of_further. }
  assert (actions git' = []) as A'.
  { destruct St' as (_ & _ & Hn & _).
    destruct (NewGitlab_cases (w_json_Unmarshal w') (w_base64_DecodeString w')
                (w_gitlab_NewClient w' (gitToken fl') (gitAPI fl'))
                (w_GetFile w' (gitPID fl') "history.json" (gitBranch fl'))
                (gitBranch fl') (gitPID fl'))
      as [(g0 & E & A0 & _)|(err & E)]; rewrite E in Hn; [|done].
    by injection Hn as <-. }
  rewrite (main_started w' _ _ _ _ St'), Eb.
  by rewrite (rerun_skipped (w_json_text w) (w_json_text w') git git' _ _ _ _ _
               K U ND R Hg' A').
Qed.

End MainTwice.

(** ** Examples

    The theorems above at the configuration file, the Grafana and the
    Gitlab of [testWorld], and at the first run of the tests. *)

Lemma started_testWorld :
  started testWorld declared testFlags (loaded history2) testDashboards.
Proof. repeat split; vm_compute; reflexivity. Qed.

(** The configuration file names git.branch twice: the second line
    wins over the first and over the default. *)
Lemma setFlagsFromFile_last_line_branch :
  (testOpen "config"
   = inr (["git.branch main"; "# the project"; "git.pid 1"]
          ++ "git.branch test" :: ["unknown.flag x"])
   ∧ asciiFields "git.branch test" = ["git.branch"; "test"]
   ∧ flag.Lookup "git.branch" declared = Some (flag.StringValue "main"))
  ∧ (setFlagsFromFile pidSet asciiFields testOpen "config" declared).2 = None
  ∧ flag.Lookup "git.branch"
      (setFlagsFromFile pidSet asciiFields testOpen "config" declared).1
    = Some (flag.StringValue "test").
Proof.
  split; [by vm_compute|].
  apply (setFlagsFromFile_last_line pidSet asciiFields testOpen "config"
           "git.branch" "test" "main"
           ["git.branch main"; "# the project"; "git.pid 1"]
           ["unknown.flag x"] "git.branch test" declared);
    [reflexivity|reflexivity|reflexivity|].
  intros l v Hl. apply list_elem_of_singleton in Hl as ->. by vm_compute.
Defined.


(** A second Commit after the first run sends its four actions again
    and a second history action. *)
Lemma Commit_again_firstRun :
  (keyed_by_uid (history firstRun)
   ∧ range_order (history firstRun) ["go1"; "go2"; "go3"])
  ∧ batch (Commit compact ["go3"; "go1"] statusOK
             (Commit compact ["go1"; "go2"; "go3"] statusOK firstRun).1).2
    = batch (Commit compact ["go1"; "go2"; "go3"] statusOK firstRun).2
      ++ [historyFileAction compact
            (Commit compact ["go1"; "go2"; "go3"] statusOK firstRun).1].
Proof.
  assert (keyed_by_uid (history firstRun)) as K by decide_by_evaluation.
  split; [exact (conj K range_order_firstRun)|].
  destruct (Commit_again compact firstRun ["go1"; "go2"; "go3"] ["go3"; "go1"]
              statusOK statusOK K range_order_firstRun) as [_ H].
  rewrite H; by vm_compute.
Defined.

(** main in [testWorld]: go1 is updated, go3 created, the file of go2,
    which could not be fetched, deleted, and the history file updated. *)
Lemma main_runs_testWorld :
  started testWorld declared testFlags (loaded history2) testDashboards
  ∧ exit (main testWorld declared) = Returned
  ∧ logged (main testWorld declared) = [ErrorGetting dashZero]
  ∧ ((λ opt, (λ a, (gitlab.Action a, gitlab.FilePath a)) <$> gitlab.Actions opt)
     <$> sent (main testWorld declared))
    = Some [(Some gitlab.FileUpdate, Some "/dev/null.json");
            (Some gitlab.FileCreate, Some "/dev/full.json");
            (Some gitlab.FileDelete, Some "/dev/zero.json");
            (Some gitlab.FileUpdate, Some "history.json")].
Proof.
  split; [exact started_testWorld|].
  destruct (main_runs testWorld declared testFlags (loaded history2)
              testDashboards started_testWorld) as (Hs & He & Hl).
  rewrite Hs, He, Hl. vm_compute. repeat split.
Defined.

Lemma main_failed_fetch_deletes_go2 :
  (started testWorld declared testFlags (loaded history2) testDashboards
   ∧ keyed_by_uid (history (loaded history2))
   ∧ unprocessed (history (loaded history2))
   ∧ dashZero ∈ testDashboards
   ∧ history (loaded history2) !! gapi.UID dashZero = Some go2)
  ∧ (ErrorGetting dashZero ∈ logged (main testWorld declared)
     ∨ ErrorConverting dashZero ∈ logged (main testWorld declared))
  ∧ ∃ opt, sent (main testWorld declared) = Some opt
           ∧ deleteAction go2 ∈ gitlab.Actions opt.
Proof.
  assert (dashZero ∈ testDashboards) as Hd
    by apply list_elem_of_further, list_elem_of_here.
  split; [by repeat split; try done; decide_by_evaluation|].
  apply (main_failed_fetch_deletes testWorld declared testFlags
           (loaded history2) testDashboards dashZero go2 started_testWorld
           keyed_by_uid_history2 unprocessed_history2).
  - unfold range_order. decide_by_evaluation.
  - exact Hd.
  - decide_by_evaluation.
  - reflexivity.
Defined.

Lemma main_batch_shape_testWorld :
  (started testWorld declared testFlags (loaded history2) testDashboards
   ∧ rooted_paths (history (loaded history2)))
  ∧ ∃ opt,
      sent (main testWorld declared) = Some opt
      ∧ ∃ adds dels,
          gitlab.Actions opt
          = adds ++ dels
            ++ [historyFileAction compact
                  (deleteOrphans ["go1"; "go2"; "go3"]
                     (AddAll (loaded history2)
                        (omap (fetched testWorld) testDashboards)))]
          ∧ Forall content_action adds
          ∧ Forall delete_action dels.
Proof.
  assert (rooted_paths (history (loaded history2))) as RP
    by decide_by_evaluation.
  split; [exact (conj started_testWorld RP)|].
  eexists. split; [vm_compute; reflexivity|].
  match goal with
  | |- ∃ adds dels, gitlab.Actions ?o = _ ∧ _ =>
      assert (sent (main testWorld declared) = Some o) as Hs
        by (vm_compute; reflexivity);
      pose proof (main_batch_shape testWorld declared testFlags
                    (loaded history2) testDashboards o started_testWorld
                    RP Hs) as H
  end.
  clear Hs. cbv zeta in H. destruct H as (_ & _ & adds & dels & E & Fa & Fd & _).
  exists adds, dels. split; [|split; [exact Fa|exact Fd]].
  vm_compute in E. vm_compute. exact E.
Defined.

(** The two blobs of the first run in the other order. *)
Lemma AddAll_order_firstRun :
  (NoDup (UID <$> [go1_modified; go3])
   ∧ [go1_modified; go3] ≡ₚ [go3; go1_modified])
  ∧ history (AddAll (loaded history2) [go3; go1_modified])
    = history (AddAll (loaded history2) [go1_modified; go3]).
Proof.
  assert (NoDup (UID <$> [go1_modified; go3])) as ND by decide_by_evaluation.
  assert ([go1_modified; go3] ≡ₚ [go3; go1_modified]) as P by apply perm_swap.
  split; [by split|].
  exact (proj1 (AddAll_order [go1_modified; go3] [go3; go1_modified]
                  (loaded history2) ND P)).
Defined.

(** The two blobs of the first run: the Update of go1, then the Create
    of go3. *)
Lemma AddAll_queues_each_firstRun :
  NoDup (UID <$> [go1_modified; go3])
  ∧ actions (AddAll (loaded history2) [go1_modified; go3])
    = actions (loaded history2)
      ++ concat (queued (loaded history2) <$> [go1_modified; go3]).
Proof.
  assert (NoDup (UID <$> [go1_modified; go3])) as ND by decide_by_evaluation.
  split; [exact ND|].
  exact (AddAll_queues_each [go1_modified; go3] (loaded history2) ND).
Defined.

Lemma started_testWorldAfter :
  started testWorldAfter declared testFlags (loaded (reload historyAfter))
    testDashboards.
Proof. repeat split; vm_compute; reflexivity. Qed.

(** main run again after the run in [testWorld]: nothing is sent. *)
Lemma main_again_testWorld :
  (started testWorld declared testFlags (loaded history2) testDashboards
   ∧ keyed_by_uid (history (loaded history2))
   ∧ unprocessed (history (loaded history2))
   ∧ NoDup (UID <$> omap (fetched testWorld) testDashboards)
   ∧ started testWorldAfter declared testFlags
       (loaded (reload historyAfter)) testDashboards)
  ∧ sent (main testWorldAfter declared) = None
  ∧ exit (main testWorldAfter declared) = Returned.
Proof.
  assert (NoDup (UID <$> omap (fetched testWorld) testDashboards)) as ND
    by decide_by_evaluation.
  split.
  { split; [exact started_testWorld|]. split; [exact keyed_by_uid_history2|].
    split; [exact unprocessed_history2|]. split; [exact ND|].
    exact started_testWorldAfter. }
  apply (main_again testWorld testWorldAfter declared testFlags declared
           testFlags (loaded history2) (loaded (reload historyAfter))
           testDashboards
           started_testWorld keyed_by_uid_history2 unprocessed_history2 ND).
  - unfold range_order. decide_by_evaluation.
  - exact started_testWorldAfter.
  - intros d _. reflexivity.
  - vm_compute. reflexivity.
Defined.
